(** * Buddy Hunt end-to-end encryption core: X3DH, Double Ratchet, key management

    A shallow embedding of the TypeScript classes [CryptoPrimitives],
    [X3DHKeyAgreement], [DoubleRatchet] and [KeyManagementService] and the
    properties their specification states about them.

    Modelling conventions.
    - An [ArrayBuffer] is a list of bytes.  A JavaScript string is the list
      of its UTF-16 code units; [TextEncoder] and [TextDecoder] are the UTF-8
      encoder and decoder of the platform, replacement character and byte
      order mark included.
    - A WebCrypto [CryptoKey] is its raw key material and its [extractable]
      flag.  [importKey] can reject its input, and a key imported with
      [extractable = false] cannot be exported: [exportKey] throws on it.  A
      [CryptoKeyPair] is what [generateKey] returns when it is called with
      [extractable = true], the only way the classes make one.
    - The WebCrypto algorithms (X25519, HKDF, AES-GCM, HMAC) are the fields
      of the class [CryptoPrimitives], together with the test by which the
      platform accepts a raw X25519 public key for given key usages; every
      operation of the protocol is defined for an arbitrary instance.  The
      facts a theorem needs about an instance (Diffie-Hellman agreement, AEAD
      round trip, the rule on key usages) are explicit hypotheses.
    - Randomness is an explicit argument: the scalar of a generated key pair,
      the nonce of an encryption.
    - The classes mutate [this.state] in place and signal errors by [throw];
      a method is a function from the state to an outcome and the state as it
      is when the method returns or throws.
    - JavaScript numbers holding counters are integers ([Z]). *)

From Stdlib Require Import ZArith Lia List Strings.String Strings.Ascii Strings.Byte Zpow_facts.
From coqutil Require Import Byte Word.LittleEndianList.
From stdpp Require Import base option list strings pretty gmap.

Local Open Scope Z_scope.

(** ** Buffers and text *)

Abbreviation ArrayBuffer := (list byte).

(** [new ArrayBuffer(n)]: [n] zero bytes. *)
Definition newArrayBuffer (n : nat) : ArrayBuffer := replicate n x00.

(** [buf.slice(a, b)]. *)
Definition slice (a b : nat) (buf : ArrayBuffer) : ArrayBuffer :=
  take (b - a)%nat (drop a buf).

(** A JavaScript string: its UTF-16 code units, each in [0, 0xFFFF]. *)
Definition JSString := list Z.

(** A string literal of the source, all of whose characters are ASCII. *)
Definition js (s : string) : JSString :=
  (fun c => Z.of_N (N_of_ascii c)) <$> list_ascii_of_string s.

Definition is_lead_surrogate (c : Z) : bool := (0xD800 <=? c) && (c <=? 0xDBFF).
Definition is_trail_surrogate (c : Z) : bool := (0xDC00 <=? c) && (c <=? 0xDFFF).

(** The scalar values [TextEncoder] reads from a string: a surrogate pair
    is one supplementary code point, a lone surrogate is replaced by
    U+FFFD. *)
Fixpoint scalar_values (s : JSString) : list Z :=
  match s with
  | [] => []
  | c :: rest =>
      if is_lead_surrogate c then
        match rest with
        | d :: rest' =>
            if is_trail_surrogate d
            then (0x10000 + Z.shiftl (c - 0xD800) 10 + (d - 0xDC00)) :: scalar_values rest'
            else 0xFFFD :: scalar_values rest
        | [] => [0xFFFD]
        end
      else if is_trail_surrogate c then 0xFFFD :: scalar_values rest
      else c :: scalar_values rest
  end.

(** The UTF-8 bytes of one scalar value. *)
Definition utf8_bytes (cp : Z) : list byte :=
  let continuation (shift : Z) := byte.of_Z (Z.lor 0x80 (Z.land (Z.shiftr cp shift) 0x3F)) in
  if cp <? 0x80 then [byte.of_Z cp]
  else if cp <? 0x800 then [byte.of_Z (Z.lor 0xC0 (Z.shiftr cp 6)); continuation 0]
  else if cp <? 0x10000 then
    [byte.of_Z (Z.lor 0xE0 (Z.shiftr cp 12)); continuation 6; continuation 0]
  else
    [byte.of_Z (Z.lor 0xF0 (Z.shiftr cp 18)); continuation 12; continuation 6; continuation 0].

(** [new TextEncoder().encode(s)]. *)
Definition TextEncoder_encode (s : JSString) : ArrayBuffer :=
  concat (utf8_bytes <$> scalar_values s).

(** What the UTF-8 decoder does with a byte read when no sequence is
    pending: it emits a code point, or it expects [needed] continuation
    bytes, the first of them within [lower, upper]. *)
Inductive Utf8Start :=
| Emit (cp : Z)
| Expect (cp : Z) (needed : nat) (lower upper : Z).

Definition utf8_start (b : Z) : Utf8Start :=
  if b <=? 0x7F then Emit b
  else if (0xC2 <=? b) && (b <=? 0xDF) then Expect (Z.land b 0x1F) 1 0x80 0xBF
  else if (0xE0 <=? b) && (b <=? 0xEF) then
    Expect (Z.land b 0xF) 2 (if b =? 0xE0 then 0xA0 else 0x80) (if b =? 0xED then 0x9F else 0xBF)
  else if (0xF0 <=? b) && (b <=? 0xF4) then
    Expect (Z.land b 0x7) 3 (if b =? 0xF0 then 0x90 else 0x80) (if b =? 0xF4 then 0x8F else 0xBF)
  else Emit 0xFFFD.

(** The UTF-8 decoder in replacement mode.  [pending] is the sequence being
    read: the code point so far, the continuation bytes still needed and the
    range of the next one.  A byte outside the range ends the sequence with
    U+FFFD and is read again as a first byte; so does the end of the input. *)
Fixpoint utf8_decode (pending : option (Z * nat * Z * Z)) (bytes : list byte) : list Z :=
  match bytes with
  | [] => match pending with None => [] | Some _ => [0xFFFD] end
  | x :: rest =>
      let b := byte.unsigned x in
      let restart :=
        match pending with
        | None => true
        | Some (_, _, lower, upper) => (b <? lower) || (upper <? b)
        end in
      if restart then
        let out :=
          match utf8_start b with
          | Emit cp => cp :: utf8_decode None rest
          | Expect cp needed lower upper => utf8_decode (Some (cp, needed, lower, upper)) rest
          end in
        match pending with None => out | Some _ => 0xFFFD :: out end
      else
        match pending with
        | Some (cp, needed, _, _) =>
            let cp := Z.lor (Z.shiftl cp 6) (Z.land b 0x3F) in
            match needed with
            | S (S more) => utf8_decode (Some (cp, S more, 0x80, 0xBF)) rest
            | _ => cp :: utf8_decode None rest
            end
        | None => []
        end
  end.

(** The decoder drops a byte order mark that starts the input. *)
Definition strip_bom (bytes : list byte) : list byte :=
  match bytes with
  | xef :: xbb :: xbf :: rest => rest
  | _ => bytes
  end.

(** The UTF-16 code units of one scalar value. *)
Definition utf16_units (cp : Z) : list Z :=
  if cp <? 0x10000 then [cp]
  else [0xD800 + Z.shiftr (cp - 0x10000) 10; 0xDC00 + Z.land (cp - 0x10000) 0x3FF].

(** [new TextDecoder().decode(b)]: UTF-8, not fatal, the byte order mark
    not kept. *)
Definition TextDecoder_decode (b : ArrayBuffer) : JSString :=
  concat (utf16_units <$> utf8_decode None (strip_bom b)).

Arguments TextEncoder_encode : simpl never.
Arguments TextDecoder_decode : simpl never.

(** ** Keys *)

(** The key usages the classes ask for. *)
Inductive KeyUsage := deriveKey | deriveBits.

(** A [CryptoKey] object: whether it may be exported, and its raw material. *)
Record CryptoKey := mkKey {
  extractable : bool;
  raw : ArrayBuffer }.

(** A [CryptoKeyPair] returned by [generateKey(..., true, ...)]: the private
    scalar and the public point.  [privateKey] and [publicKey] are its two
    [CryptoKey] objects, both extractable. *)
Record CryptoKeyPair := mkKeyPair {
  privateScalar : ArrayBuffer;
  publicPoint : ArrayBuffer }.

Definition privateKey (keyPair : CryptoKeyPair) : CryptoKey :=
  {| extractable := true; raw := privateScalar keyPair |}.
Definition publicKey (keyPair : CryptoKeyPair) : CryptoKey :=
  {| extractable := true; raw := publicPoint keyPair |}.

(** ** The platform *)

Class CryptoPrimitives := {
  (** the public point [generateKey] pairs with a private scalar *)
  publicOf : ArrayBuffer -> ArrayBuffer;
  (** X25519 on a private scalar and a public point *)
  x25519 : ArrayBuffer -> ArrayBuffer -> ArrayBuffer;
  (** [hkdf(inputKeyMaterial, salt, info, length)] *)
  hkdf : ArrayBuffer -> ArrayBuffer -> ArrayBuffer -> nat -> ArrayBuffer;
  (** AES-GCM sealing under a key, nonce and optional associated data *)
  aesgcm_seal : ArrayBuffer -> ArrayBuffer -> option ArrayBuffer -> ArrayBuffer -> ArrayBuffer;
  (** AES-GCM opening; [None] when the tag does not verify *)
  aesgcm_open : ArrayBuffer -> ArrayBuffer -> option ArrayBuffer -> ArrayBuffer -> option ArrayBuffer;
  (** [hmac(key, data)] *)
  hmac : ArrayBuffer -> ArrayBuffer -> ArrayBuffer;
  (** whether [importKey('raw', keyData, 'X25519', _, keyUsages)] accepts
      its input *)
  import_accepted : list KeyUsage -> ArrayBuffer -> bool }.

(** Errors the core raises.  [CryptoError] is the rejection of [importKey]
    or [exportKey], [AuthenticationFailure] the rejection of
    [crypto.subtle.decrypt], [SkippedTooMany] is
    [Error('Too many skipped messages')], [SessionNotFound] is
    [Error('Conversation session not found')], [SignedPreKeyNotFound] is
    [Error('Signed pre-key not found')], [NullIdentityKey] the access to
    [identityKeyPair!] while it is [null]. *)
Inductive Error :=
| CryptoError
| AuthenticationFailure
| SkippedTooMany
| SessionNotFound
| SignedPreKeyNotFound
| NullIdentityKey.

Inductive result (A : Type) :=
| Ok (a : A)
| Err (e : Error).
Arguments Ok {A} a.
Arguments Err {A} e.

(** [await] on a promise that may reject. *)
Definition and_then {A B} (r : result A) (k : A -> result B) : result B :=
  match r with
  | Ok a => k a
  | Err e => Err e
  end.

Notation "'await' x <~ r ;; k" := (and_then r (fun x => k))
  (at level 10, x name, r at level 99, k at level 200).

(** A method on a mutable object of type [S]: the outcome, and the object as
    the method leaves it (also when it throws). *)
Definition M (S A : Type) : Type := S -> result A * S.

Definition ret {S A} (a : A) : M S A := fun s => (Ok a, s).
Definition throw {S A} (e : Error) : M S A := fun s => (Err e, s).
Definition bind {S A B} (m : M S A) (k : A -> M S B) : M S B :=
  fun s => match m s with
           | (Ok a, s') => k a s'
           | (Err e, s') => (Err e, s')
           end.
Definition get {S} : M S S := fun s => (Ok s, s).
Definition put {S} (s : S) : M S unit := fun _ => (Ok tt, s).
Definition modify {S} (f : S -> S) : M S unit := fun s => (Ok tt, f s).
(** A call that does not touch the object. *)
Definition lift {S A} (r : result A) : M S A := fun s => (r, s).

Notation "'do' x <~ m ;; k" := (bind m (fun x => k))
  (at level 10, x name, m at level 99, k at level 200).

(** ** CryptoPrimitives *)

(** The usages every [importKey] call of the classes passes. *)
Definition X25519_usages : list KeyUsage := [deriveKey; deriveBits].

Section Primitives.
Context `{CP : CryptoPrimitives}.

(** [crypto.subtle.importKey('raw', keyData, 'X25519', extractable,
    keyUsages)]. *)
Definition importKey (keyData : ArrayBuffer) (extractable : bool) (keyUsages : list KeyUsage)
    : result CryptoKey :=
  if import_accepted keyUsages keyData
  then Ok {| extractable := extractable; raw := keyData |}
  else Err CryptoError.

(** [crypto.subtle.exportKey('raw', key)]. *)
Definition exportKey (key : CryptoKey) : result ArrayBuffer :=
  if extractable key then Ok (raw key) else Err CryptoError.

(** [generateKeyPair()], from the drawn scalar. *)
Definition generateKeyPair (seed : ArrayBuffer) : CryptoKeyPair :=
  {| privateScalar := seed; publicPoint := publicOf seed |}.

(** [deriveSharedSecret(privateKey, publicKey)]. *)
Definition deriveSharedSecret (privateKey publicKey : CryptoKey) : ArrayBuffer :=
  x25519 (raw privateKey) (raw publicKey).

(** [encryptAESGCM(key, plaintext, associatedData?)], from the drawn nonce. *)
Definition encryptAESGCM (nonce : ArrayBuffer) (key plaintext : ArrayBuffer)
    (associatedData : option ArrayBuffer) : ArrayBuffer * ArrayBuffer :=
  (aesgcm_seal key nonce associatedData plaintext, nonce).

(** [decryptAESGCM(key, ciphertext, iv, associatedData?)]. *)
Definition decryptAESGCM {S} (key ciphertext iv : ArrayBuffer)
    (associatedData : option ArrayBuffer) : M S ArrayBuffer :=
  match aesgcm_open key iv associatedData ciphertext with
  | Some plaintext => ret plaintext
  | None => throw AuthenticationFailure
  end.

(** ** X3DHKeyAgreement *)

Record PreKeyBundle := mkBundle {
  identityKey : ArrayBuffer;
  signedPreKey : ArrayBuffer;
  signedPreKeySignature : ArrayBuffer;
  oneTimePreKey : option ArrayBuffer }.

Definition x3dh_info : ArrayBuffer := TextEncoder_encode (js "BuddyHunt X3DH").

(** The remote keys [performX3DH] imports before it derives anything. *)
Record RemoteKeys := mkRemoteKeys {
  remoteIdentityKey : CryptoKey;
  remoteSignedPreKey : CryptoKey;
  remoteOneTimePreKey : option CryptoKey }.

Definition importRemoteKeys (remotePreKeyBundle : PreKeyBundle) : result RemoteKeys :=
  await remoteIdentityKey <~ importKey (identityKey remotePreKeyBundle) false X25519_usages ;;
  await remoteSignedPreKey <~ importKey (signedPreKey remotePreKeyBundle) false X25519_usages ;;
  await remoteOneTimePreKey <~
    match oneTimePreKey remotePreKeyBundle with
    | Some otk => await key <~ importKey otk false X25519_usages ;; Ok (Some key)
    | None => Ok None
    end ;;
  Ok {| remoteIdentityKey := remoteIdentityKey;
        remoteSignedPreKey := remoteSignedPreKey;
        remoteOneTimePreKey := remoteOneTimePreKey |}.

(** The rest of [performX3DH]: three or four DH outputs, concatenated, then
    HKDF. *)
Definition deriveX3DH (identityKeyPair ephemeralKeyPair : CryptoKeyPair) (remote : RemoteKeys)
    : ArrayBuffer :=
  let dh1 := deriveSharedSecret (privateKey identityKeyPair) (remoteSignedPreKey remote) in
  let dh2 := deriveSharedSecret (privateKey ephemeralKeyPair) (remoteIdentityKey remote) in
  let dh3 := deriveSharedSecret (privateKey ephemeralKeyPair) (remoteSignedPreKey remote) in
  let sharedSecrets := dh1 ++ dh2 ++ dh3 in
  let sharedSecrets :=
    match remoteOneTimePreKey remote with
    | Some otk =>
        let dh4 := deriveSharedSecret (privateKey ephemeralKeyPair) otk in
        sharedSecrets ++ dh4
    | None => sharedSecrets
    end in
  hkdf sharedSecrets (newArrayBuffer 32) x3dh_info 32.

(** [performX3DH(identityKeyPair, ephemeralKeyPair, remotePreKeyBundle)]. *)
Definition performX3DH (identityKeyPair ephemeralKeyPair : CryptoKeyPair)
    (remotePreKeyBundle : PreKeyBundle) : result ArrayBuffer :=
  await remote <~ importRemoteKeys remotePreKeyBundle ;;
  Ok (deriveX3DH identityKeyPair ephemeralKeyPair remote).

(** ** DoubleRatchet *)

Record RatchetState := mkState {
  rootKey : ArrayBuffer;
  chainKeySend : ArrayBuffer;
  chainKeyRecv : ArrayBuffer;
  dhSend : CryptoKeyPair;
  dhRecv : option CryptoKey;
  pn : Z;
  ns : Z;
  nr : Z;
  skippedKeys : gmap string ArrayBuffer }.

Record Header := mkHeader {
  dhPublicKey : ArrayBuffer;
  h_pn : Z;
  h_n : Z }.

Record EncryptedMessage := mkMessage {
  header : Header;
  ciphertext : ArrayBuffer;
  iv : ArrayBuffer }.

Definition MAX_SKIP : Z := 1000.

Definition set_rootKey (v : ArrayBuffer) (s : RatchetState) : RatchetState :=
  mkState v (chainKeySend s) (chainKeyRecv s) (dhSend s) (dhRecv s) (pn s) (ns s) (nr s) (skippedKeys s).
Definition set_chainKeySend (v : ArrayBuffer) (s : RatchetState) : RatchetState :=
  mkState (rootKey s) v (chainKeyRecv s) (dhSend s) (dhRecv s) (pn s) (ns s) (nr s) (skippedKeys s).
Definition set_chainKeyRecv (v : ArrayBuffer) (s : RatchetState) : RatchetState :=
  mkState (rootKey s) (chainKeySend s) v (dhSend s) (dhRecv s) (pn s) (ns s) (nr s) (skippedKeys s).
Definition set_dhSend (v : CryptoKeyPair) (s : RatchetState) : RatchetState :=
  mkState (rootKey s) (chainKeySend s) (chainKeyRecv s) v (dhRecv s) (pn s) (ns s) (nr s) (skippedKeys s).
Definition set_dhRecv (v : option CryptoKey) (s : RatchetState) : RatchetState :=
  mkState (rootKey s) (chainKeySend s) (chainKeyRecv s) (dhSend s) v (pn s) (ns s) (nr s) (skippedKeys s).
Definition set_pn (v : Z) (s : RatchetState) : RatchetState :=
  mkState (rootKey s) (chainKeySend s) (chainKeyRecv s) (dhSend s) (dhRecv s) v (ns s) (nr s) (skippedKeys s).
Definition set_ns (v : Z) (s : RatchetState) : RatchetState :=
  mkState (rootKey s) (chainKeySend s) (chainKeyRecv s) (dhSend s) (dhRecv s) (pn s) v (nr s) (skippedKeys s).
Definition set_nr (v : Z) (s : RatchetState) : RatchetState :=
  mkState (rootKey s) (chainKeySend s) (chainKeyRecv s) (dhSend s) (dhRecv s) (pn s) (ns s) v (skippedKeys s).
Definition set_skippedKeys (v : gmap string ArrayBuffer) (s : RatchetState) : RatchetState :=
  mkState (rootKey s) (chainKeySend s) (chainKeyRecv s) (dhSend s) (dhRecv s) (pn s) (ns s) (nr s) v.

(** [deriveRootChainKeys(rootKey, dhOutput)]: HKDF keyed by the DH output,
    salted with the root key; 64 bytes split in two. *)
Definition deriveRootChainKeys (rootKey dhOutput : ArrayBuffer) : ArrayBuffer * ArrayBuffer :=
  let derived := hkdf dhOutput rootKey (TextEncoder_encode (js "BuddyHunt Root Chain")) 64 in
  let newRootKey := slice 0 32 derived in
  let chainKey := slice 32 64 derived in
  (newRootKey, chainKey).

(** [deriveMessageKey(chainKey)]: (messageKey, nextChainKey). *)
Definition deriveMessageKey (chainKey : ArrayBuffer) : ArrayBuffer * ArrayBuffer :=
  let messageKey := hmac chainKey (TextEncoder_encode (js "MESSAGE_KEY_SEED")) in
  let nextChainKey := hmac chainKey (TextEncoder_encode (js "CHAIN_KEY_SEED")) in
  (messageKey, nextChainKey).

(** The byte loop of [areKeysEqual], on arrays of one length. *)
Fixpoint bytes_loop_equal (arr1 arr2 : list byte) : bool :=
  match arr1, arr2 with
  | b1 :: r1, b2 :: r2 => if Byte.eqb b1 b2 then bytes_loop_equal r1 r2 else false
  | _, _ => true
  end.

(** [areKeysEqual(key1, key2)]: both keys are exported, then the length
    test and the byte loop; an export that throws is caught and the answer is
    [false]. *)
Definition areKeysEqual (key1 key2 : CryptoKey) : bool :=
  match exportKey key1 with
  | Err _ => false
  | Ok raw1 =>
      match exportKey key2 with
      | Err _ => false
      | Ok raw2 =>
          if negb (length raw1 =? length raw2)%nat then false
          else bytes_loop_equal raw1 raw2
      end
  end.

(** [initializeAlice(sharedKey, remotePublicKey)]; [seed] is the scalar of
    the key pair it generates.  The state it assigns, or the error of
    [importKey]. *)
Definition initializeAlice (seed : ArrayBuffer) (sharedKey remotePublicKey : ArrayBuffer)
    : result RatchetState :=
  let dhSend := generateKeyPair seed in
  await dhRecv <~ importKey remotePublicKey false X25519_usages ;;
  let rootKey := sharedKey in
  let '(newRootKey, chainKey) :=
    deriveRootChainKeys rootKey (deriveSharedSecret (privateKey dhSend) dhRecv) in
  Ok {| rootKey := newRootKey;
        chainKeySend := chainKey;
        chainKeyRecv := newArrayBuffer 32;
        dhSend := dhSend;
        dhRecv := Some dhRecv;
        pn := 0; ns := 0; nr := 0;
        skippedKeys := ∅ |}.

Definition initializeBob (sharedKey : ArrayBuffer) (keyPair : CryptoKeyPair) : RatchetState :=
  {| rootKey := sharedKey;
     chainKeySend := newArrayBuffer 32;
     chainKeyRecv := newArrayBuffer 32;
     dhSend := keyPair;
     dhRecv := None;
     pn := 0; ns := 0; nr := 0;
     skippedKeys := ∅ |}.

(** [encrypt(plaintext)]; [nonce] is the nonce [encryptAESGCM] draws. *)
Definition encrypt (nonce : ArrayBuffer) (plaintext : JSString) : M RatchetState EncryptedMessage :=
  let plaintextBytes := TextEncoder_encode plaintext in
  do s <~ get ;;
  let '(messageKey, nextChainKey) := deriveMessageKey (chainKeySend s) in
  do _ <~ modify (set_chainKeySend nextChainKey) ;;
  let '(ciphertext, iv) := encryptAESGCM nonce messageKey plaintextBytes None in
  do s <~ get ;;
  do dhPublicKey <~ lift (exportKey (publicKey (dhSend s))) ;;
  let message :=
    {| header := {| dhPublicKey := dhPublicKey; h_pn := pn s; h_n := ns s |};
       ciphertext := ciphertext;
       iv := iv |} in
  do _ <~ modify (fun s => set_ns (ns s + 1) s) ;;
  ret message.

(** One turn of the [while] loop of [skipMessageKeys]. *)
Definition skip_one (s : RatchetState) : RatchetState :=
  let '(messageKey, nextChainKey) := deriveMessageKey (chainKeyRecv s) in
  let keyId : string := pretty (nr s) in
  let s := set_skippedKeys (<[keyId := messageKey]> (skippedKeys s)) s in
  let s := set_chainKeyRecv nextChainKey s in
  set_nr (nr s + 1) s.

(** [while (this.state.nr < until) { ... }], at most [fuel] turns. *)
Fixpoint skip_loop (fuel : nat) (until : Z) (s : RatchetState) : RatchetState :=
  match fuel with
  | O => s
  | S fuel' => if nr s <? until then skip_loop fuel' until (skip_one s) else s
  end.

(** [skipMessageKeys(until)].  Past the guard the loop runs at most
    [until - nr] turns. *)
Definition skipMessageKeys (until : Z) : M RatchetState unit :=
  do s <~ get ;;
  if nr s + MAX_SKIP <? until then throw SkippedTooMany
  else modify (skip_loop (Z.to_nat (until - nr s)) until).

(** [performDHRatchet(remotePublicKey, header)]; [seed] is the scalar of the
    key pair it generates. *)
Definition performDHRatchet (seed : ArrayBuffer) (remotePublicKey : CryptoKey)
    (header : Header) : M RatchetState unit :=
  do _ <~ modify (fun s => set_pn (ns s) s) ;;
  do _ <~ modify (set_ns 0) ;;
  do _ <~ modify (set_nr 0) ;;
  do _ <~ modify (set_dhRecv (Some remotePublicKey)) ;;
  do _ <~ skipMessageKeys (h_pn header) ;;
  do s <~ get ;;
  let dhOutput := deriveSharedSecret (privateKey (dhSend s)) remotePublicKey in
  let '(newRootKey, chainKey) := deriveRootChainKeys (rootKey s) dhOutput in
  do _ <~ modify (set_rootKey newRootKey) ;;
  do _ <~ modify (set_chainKeyRecv chainKey) ;;
  do _ <~ modify (set_dhSend (generateKeyPair seed)) ;;
  do s <~ get ;;
  let dhOutputSend := deriveSharedSecret (privateKey (dhSend s)) remotePublicKey in
  let '(finalRootKey, sendChainKey) := deriveRootChainKeys (rootKey s) dhOutputSend in
  do _ <~ modify (set_rootKey finalRootKey) ;;
  modify (set_chainKeySend sendChainKey).

(** The test of [decrypt] that triggers the DH ratchet:
    [dhRecv === null || !areKeysEqual(dhPublicKey, dhRecv)]. *)
Definition needsDHRatchet (s : RatchetState) (dhPublicKey : CryptoKey) : bool :=
  match dhRecv s with
  | None => true
  | Some k => negb (areKeysEqual dhPublicKey k)
  end.

(** [decrypt(message)]; [seed] is consumed by the DH ratchet if it runs. *)
Definition decrypt (seed : ArrayBuffer) (message : EncryptedMessage) : M RatchetState JSString :=
  do dhPublicKey <~ lift (importKey (dhPublicKey (header message)) false X25519_usages) ;;
  do s <~ get ;;
  do _ <~ (if needsDHRatchet s dhPublicKey
           then performDHRatchet seed dhPublicKey (header message)
           else ret tt) ;;
  do _ <~ skipMessageKeys (h_n (header message)) ;;
  do s <~ get ;;
  let '(messageKey, nextChainKey) := deriveMessageKey (chainKeyRecv s) in
  do _ <~ modify (set_chainKeyRecv nextChainKey) ;;
  do _ <~ modify (fun s => set_nr (nr s + 1) s) ;;
  do plaintext <~ decryptAESGCM messageKey (ciphertext message) (iv message) None ;;
  ret (TextDecoder_decode plaintext).

End Primitives.

(** ** KeyManagementService *)

Record ConversationSession := mkSession {
  conversationId : string;
  ratchet : RatchetState;
  createdAt : Z;
  lastUsed : Z }.

Record KeyManagementService := mkKMS {
  sessions : gmap string ConversationSession;
  identityKeyPair : option CryptoKeyPair;
  preKeys : gmap string CryptoKeyPair;
  oneTimePreKeys : gmap string CryptoKeyPair }.

Record KeyBundle := mkKeyBundle {
  kb_identityKey : ArrayBuffer;
  kb_signedPreKey : ArrayBuffer;
  kb_signedPreKeySignature : ArrayBuffer;
  kb_oneTimePreKey : option ArrayBuffer }.

Definition set_sessions (v : gmap string ConversationSession) (k : KeyManagementService) : KeyManagementService :=
  mkKMS v (identityKeyPair k) (preKeys k) (oneTimePreKeys k).
Definition set_oneTimePreKeys (v : gmap string CryptoKeyPair) (k : KeyManagementService) : KeyManagementService :=
  mkKMS (sessions k) (identityKeyPair k) (preKeys k) v.
Definition set_lastUsed (v : Z) (c : ConversationSession) : ConversationSession :=
  mkSession (conversationId c) (ratchet c) (createdAt c) v.
Definition set_ratchet (v : RatchetState) (c : ConversationSession) : ConversationSession :=
  mkSession (conversationId c) v (createdAt c) (lastUsed c).

(** [7 * 24 * 60 * 60 * 1000] milliseconds. *)
Definition SEVEN_DAYS : Z := 7 * 24 * 60 * 60 * 1000.

Section Service.
Context `{CP : CryptoPrimitives}.

(** JavaScript truthiness of an optional string: [undefined] and the empty
    string are falsy. *)
Definition truthy (id : option string) : bool :=
  match id with
  | Some s => negb (String.eqb s "")
  | None => false
  end.

(** [this.identityKeyPair!.privateKey]. *)
Definition identityPrivateKey : M KeyManagementService CryptoKey :=
  do k <~ get ;;
  match identityKeyPair k with
  | Some kp => ret (privateKey kp)
  | None => throw NullIdentityKey
  end.

(** [startConversation(recipientUserId)].  [fetchKeyBundle] is the directory
    lookup, [now] the clock, [newId] the handle made from the clock and
    [Math.random], [ephemeralSeed] and [ratchetSeed] the scalars of the two
    key pairs generated.  With [this.identityKeyPair] still [null],
    [performX3DH] imports the remote keys and then fails to read the private
    key. *)
Definition startConversation (fetchKeyBundle : string -> KeyBundle) (now : Z)
    (newId : string) (ephemeralSeed ratchetSeed : ArrayBuffer)
    (recipientUserId : string) : M KeyManagementService string :=
  let keyBundle := fetchKeyBundle recipientUserId in
  let ephemeralKeyPair := generateKeyPair ephemeralSeed in
  let remotePreKeyBundle :=
    {| identityKey := kb_identityKey keyBundle;
       signedPreKey := kb_signedPreKey keyBundle;
       signedPreKeySignature := kb_signedPreKeySignature keyBundle;
       oneTimePreKey := kb_oneTimePreKey keyBundle |} in
  do k <~ get ;;
  do sharedKey <~ lift
    match identityKeyPair k with
    | Some identityKeyPair => performX3DH identityKeyPair ephemeralKeyPair remotePreKeyBundle
    | None => await _ <~ importRemoteKeys remotePreKeyBundle ;; Err NullIdentityKey
    end ;;
  do ratchet <~ lift (initializeAlice ratchetSeed sharedKey (kb_signedPreKey keyBundle)) ;;
  let conversationId := newId in
  do _ <~ modify (fun k => set_sessions
        (<[conversationId := {| conversationId := conversationId; ratchet := ratchet;
                                createdAt := now; lastUsed := now |}]> (sessions k)) k) ;;
  ret conversationId.

(** [acceptConversation(senderUserId, ephemeralPublicKey, signedPreKeyId,
    oneTimePreKeyId?)].  [fetchIdentityKey] is the directory lookup. *)
Definition acceptConversation (fetchIdentityKey : string -> ArrayBuffer) (now : Z)
    (newId : string) (senderUserId : string) (ephemeralPublicKey : ArrayBuffer)
    (signedPreKeyId : string) (oneTimePreKeyId : option string)
    : M KeyManagementService string :=
  do k <~ get ;;
  let signedPreKeyPair := preKeys k !! signedPreKeyId in
  let oneTimePreKeyPair :=
    if truthy oneTimePreKeyId then oneTimePreKeys k !! default "" oneTimePreKeyId else None in
  match signedPreKeyPair with
  | None => throw SignedPreKeyNotFound
  | Some signedPreKeyPair =>
      do _ <~ (if truthy oneTimePreKeyId
               then modify (fun k => set_oneTimePreKeys
                              (delete (default "" oneTimePreKeyId) (oneTimePreKeys k)) k)
               else ret tt) ;;
      let senderIdentityKey := fetchIdentityKey senderUserId in
      do ephemeralKey <~ lift (importKey ephemeralPublicKey false X25519_usages) ;;
      do senderIdentity <~ lift (importKey senderIdentityKey false X25519_usages) ;;
      let dh1 := deriveSharedSecret (privateKey signedPreKeyPair) senderIdentity in
      do identityPriv <~ identityPrivateKey ;;
      let dh2 := deriveSharedSecret identityPriv ephemeralKey in
      let dh3 := deriveSharedSecret (privateKey signedPreKeyPair) ephemeralKey in
      let sharedSecrets := dh1 ++ dh2 ++ dh3 in
      let sharedSecrets :=
        match oneTimePreKeyPair with
        | Some otk =>
            let dh4 := deriveSharedSecret (privateKey otk) ephemeralKey in
            sharedSecrets ++ dh4
        | None => sharedSecrets
        end in
      let sharedKey :=
        hkdf sharedSecrets (newArrayBuffer 32) (TextEncoder_encode (js "BuddyHunt X3DH")) 32 in
      let ratchet := initializeBob sharedKey signedPreKeyPair in
      let conversationId := newId in
      do _ <~ modify (fun k => set_sessions
            (<[conversationId := {| conversationId := conversationId; ratchet := ratchet;
                                    createdAt := now; lastUsed := now |}]> (sessions k)) k) ;;
      ret conversationId
  end.

(** [session.ratchet.op(...)] for a session held in the registry: the
    ratchet object is shared with the registry, so the registry sees the
    state the call leaves, also when the call throws. *)
Definition onRatchet {A} (id : string) (session : ConversationSession)
    (op : M RatchetState A) : M KeyManagementService A :=
  fun k =>
    let '(r, st) := op (ratchet session) in
    (r, set_sessions (<[id := set_ratchet st session]> (sessions k)) k).

(** [encryptMessage(conversationId, plaintext)]. *)
Definition encryptMessage (now : Z) (nonce : ArrayBuffer) (conversationId : string)
    (plaintext : JSString) : M KeyManagementService EncryptedMessage :=
  do k <~ get ;;
  match sessions k !! conversationId with
  | None => throw SessionNotFound
  | Some session =>
      let session := set_lastUsed now session in
      onRatchet conversationId session (encrypt nonce plaintext)
  end.

(** [decryptMessage(conversationId, encryptedMessage)]. *)
Definition decryptMessage (now : Z) (seed : ArrayBuffer) (conversationId : string)
    (encryptedMessage : EncryptedMessage) : M KeyManagementService JSString :=
  do k <~ get ;;
  match sessions k !! conversationId with
  | None => throw SessionNotFound
  | Some session =>
      let session := set_lastUsed now session in
      onRatchet conversationId session (decrypt seed encryptedMessage)
  end.

(** [cleanupOldSessions()] at time [now]: the loop over the registry
    deletes every session last used before the cutoff. *)
Definition cleanupOldSessions (now : Z) : M KeyManagementService unit :=
  let cutoff := now - SEVEN_DAYS in
  modify (fun k => set_sessions
    (map_fold (fun conversationId session (remaining : gmap string ConversationSession) =>
                 if lastUsed session <? cutoff then delete conversationId remaining else remaining)
              (sessions k) (sessions k)) k).

(** ** Facts about a platform *)

(** X25519: both parties of an exchange derive the same secret. *)
Definition dh_agreement : Prop :=
  forall a b : ArrayBuffer, x25519 a (publicOf b) = x25519 b (publicOf a).

(** AES-GCM: opening what was sealed, under the same key, nonce and
    associated data, returns the plaintext. *)
Definition aead_correct : Prop :=
  forall (key nonce : ArrayBuffer) (ad : option ArrayBuffer) (p : ArrayBuffer),
    aesgcm_open key nonce ad (aesgcm_seal key nonce ad p) = Some p.

(** The rule of the Web Cryptography API for a raw X25519 public key: it is
    imported with no key usage, and any usage asked for is a [SyntaxError]. *)
Definition public_key_usages_rule : Prop :=
  forall (keyUsages : list KeyUsage) (keyData : ArrayBuffer),
    keyUsages <> [] -> import_accepted keyUsages keyData = false.

End Service.

(** ** A reference instance of the primitives

    A small executable instance on which the protocol can be run: modular
    exponentiation for the key agreement, a polynomial digest for HMAC and
    HKDF, a keystream cipher with a 16-byte tag appended for the AEAD.
    [refPrimitives] accepts every 32-byte public key, whatever the usages
    asked for; [strictPrimitives] has the same algorithms and follows the
    rule on key usages. *)

(** Modulus of the key agreement. *)
Definition ref_p : Z := 2 ^ 61 - 1.

(** One step of the digest, on a 61-bit state. *)
Definition ref_mix (h : Z) (b : byte) : Z :=
  Z.land (h * 257 + byte.unsigned b + 1) (Z.ones 61).

Definition ref_digest (data : ArrayBuffer) : ArrayBuffer :=
  le_split 32 (fold_left ref_mix data 5381).

Definition ref_hmac (key data : ArrayBuffer) : ArrayBuffer :=
  ref_digest (ref_digest key ++ data).

Definition ref_hkdf (ikm salt info : ArrayBuffer) (len : nat) : ArrayBuffer :=
  take len (concat (map (fun i => ref_digest (ref_hmac salt ikm ++ info ++ [byte.of_Z (Z.of_nat i)]))
                        (seq 1 (len / 32 + 1)))).

Definition ref_publicOf (priv : ArrayBuffer) : ArrayBuffer :=
  le_split 32 (Zpow_mod 9 (le_combine priv) ref_p).

Definition ref_dh (priv pub : ArrayBuffer) : ArrayBuffer :=
  le_split 32 (Zpow_mod (le_combine pub) (le_combine priv) ref_p).

Definition ref_keystream (key nonce : ArrayBuffer) (len : nat) : ArrayBuffer :=
  map (fun i => hd x00 (ref_digest (key ++ nonce ++ le_split 4 (Z.of_nat i)))) (seq 0 len).

Definition ref_xor (a b : ArrayBuffer) : ArrayBuffer := zip_with byte.xor a b.

Definition ref_ad (ad : option ArrayBuffer) : ArrayBuffer :=
  match ad with
  | Some a => x01 :: a
  | None => [x00]
  end.

Definition ref_tag (key nonce : ArrayBuffer) (ad : option ArrayBuffer) (body : ArrayBuffer) : ArrayBuffer :=
  take 16 (ref_hmac key (nonce ++ ref_ad ad ++ body)).

Definition ref_seal (key nonce : ArrayBuffer) (ad : option ArrayBuffer) (plaintext : ArrayBuffer) : ArrayBuffer :=
  let body := ref_xor plaintext (ref_keystream key nonce (length plaintext)) in
  body ++ ref_tag key nonce ad body.

Definition ref_open (key nonce : ArrayBuffer) (ad : option ArrayBuffer) (sealed : ArrayBuffer) : option ArrayBuffer :=
  if (length sealed <? 16)%nat then None
  else
    let n := (length sealed - 16)%nat in
    let body := take n sealed in
    let tag := drop n sealed in
    if bytes_loop_equal tag (ref_tag key nonce ad body)
    then Some (ref_xor body (ref_keystream key nonce n))
    else None.

Definition refPrimitives : CryptoPrimitives :=
  {| publicOf := ref_publicOf;
     x25519 := ref_dh;
     hkdf := ref_hkdf;
     aesgcm_seal := ref_seal;
     aesgcm_open := ref_open;
     hmac := ref_hmac;
     import_accepted := fun _ keyData => (length keyData =? 32)%nat |}.

Definition strictPrimitives : CryptoPrimitives :=
  {| publicOf := ref_publicOf;
     x25519 := ref_dh;
     hkdf := ref_hkdf;
     aesgcm_seal := ref_seal;
     aesgcm_open := ref_open;
     hmac := ref_hmac;
     import_accepted := fun keyUsages keyData =>
       match keyUsages with
       | [] => (length keyData =? 32)%nat
       | _ :: _ => false
       end |}.

(** ** Two-party runs *)

(** Who sends a message. *)
Inductive Party := Alice | Bob.

(** One message of a run: its sender, its plaintext, the nonce the sender
    draws and the scalar the receiver draws if it ratchets. *)
Record Send := mkSend {
  sender : Party;
  text : JSString;
  send_nonce : ArrayBuffer;
  recv_seed : ArrayBuffer }.

Section Runs.
Context `{CP : CryptoPrimitives}.

(** The message is encrypted by its sender and decrypted at once by the
    other party; the outcome of the decryption and both states after it. *)
Definition deliver (m : Send) (st : RatchetState * RatchetState)
    : result JSString * (RatchetState * RatchetState) :=
  let '(a, b) := st in
  match sender m with
  | Alice =>
      match encrypt (send_nonce m) (text m) a with
      | (Ok msg, a') => let '(r, b') := decrypt (recv_seed m) msg b in (r, (a', b'))
      | (Err e, a') => (Err e, (a', b))
      end
  | Bob =>
      match encrypt (send_nonce m) (text m) b with
      | (Ok msg, b') => let '(r, a') := decrypt (recv_seed m) msg a in (r, (a', b'))
      | (Err e, b') => (Err e, (a, b'))
      end
  end.

(** What the receivers of a run get, message by message, every message
    delivered as it is sent. *)
Fixpoint outcomes (ms : list Send) (st : RatchetState * RatchetState) : list (result JSString) :=
  match ms with
  | [] => []
  | m :: ms' => let r := deliver m st in fst r :: outcomes ms' (snd r)
  end.

(** The senders of a run take turns, [first] sending first. *)
Fixpoint alternating (first : Party) (ms : list Send) : Prop :=
  match ms with
  | [] => True
  | m :: ms' =>
      sender m = first /\
      alternating (match first with Alice => Bob | Bob => Alice end) ms'
  end.

End Runs.

(** ** Notions used in the statements *)

Section Notions.
Context `{CP : CryptoPrimitives}.

Definition messageKeyOf (chainKey : ArrayBuffer) : ArrayBuffer := fst (deriveMessageKey chainKey).
Definition nextChainKeyOf (chainKey : ArrayBuffer) : ArrayBuffer := snd (deriveMessageKey chainKey).

(** The chain key [k] symmetric-ratchet steps later. *)
Fixpoint chain_advance (k : nat) (chainKey : ArrayBuffer) : ArrayBuffer :=
  match k with
  | O => chainKey
  | S k' => chain_advance k' (nextChainKeyOf chainKey)
  end.

(** [k] turns of the loop of [skipMessageKeys]. *)
Fixpoint skip_times (k : nat) (s : RatchetState) : RatchetState :=
  match k with
  | O => s
  | S k' => skip_times k' (skip_one s)
  end.

(** The key object [decrypt] makes of a header key the platform accepts. *)
Definition imported (keyData : ArrayBuffer) : CryptoKey :=
  {| extractable := false; raw := keyData |}.

(** The part of [decrypt] that precedes the call of [decryptAESGCM]: it
    returns the message key [decrypt] is about to use. *)
Definition resolveKey (seed : ArrayBuffer) (message : EncryptedMessage) : M RatchetState ArrayBuffer :=
  do dhPublicKey <~ lift (importKey (dhPublicKey (header message)) false X25519_usages) ;;
  do s <~ get ;;
  do _ <~ (if needsDHRatchet s dhPublicKey
           then performDHRatchet seed dhPublicKey (header message)
           else ret tt) ;;
  do _ <~ skipMessageKeys (h_n (header message)) ;;
  do s <~ get ;;
  let '(messageKey, nextChainKey) := deriveMessageKey (chainKeyRecv s) in
  do _ <~ modify (set_chainKeyRecv nextChainKey) ;;
  do _ <~ modify (fun s => set_nr (nr s + 1) s) ;;
  ret messageKey.

(** The state [performDHRatchet] has built when it calls [skipMessageKeys]. *)
Definition ratchet_entry (remotePublicKey : CryptoKey) (s : RatchetState) : RatchetState :=
  set_dhRecv (Some remotePublicKey) (set_nr 0 (set_ns 0 (set_pn (ns s) s))).

(** The state a successful [performDHRatchet] leaves. *)
Definition ratchet_exit (seed : ArrayBuffer) (remotePublicKey : CryptoKey) (header : Header)
    (s : RatchetState) : RatchetState :=
  let s1 := skip_times (Z.to_nat (h_pn header)) (ratchet_entry remotePublicKey s) in
  let recv := deriveRootChainKeys (rootKey s)
                (deriveSharedSecret (privateKey (dhSend s)) remotePublicKey) in
  let send := deriveRootChainKeys (fst recv)
                (deriveSharedSecret (privateKey (generateKeyPair seed)) remotePublicKey) in
  {| rootKey := fst send;
     chainKeySend := snd send;
     chainKeyRecv := snd recv;
     dhSend := generateKeyPair seed;
     dhRecv := Some remotePublicKey;
     pn := ns s; ns := 0; nr := nr s1;
     skippedKeys := skippedKeys s1 |}.

(** The receiving chain moved one step: what [decrypt] does to the state
    once the message key is derived. *)
Definition recv_advance (s : RatchetState) : RatchetState :=
  set_nr (nr s + 1) (set_chainKeyRecv (nextChainKeyOf (chainKeyRecv s)) s).

(** The sending chain moved one step: what [encrypt] does to the state. *)
Definition send_advance (s : RatchetState) : RatchetState :=
  set_ns (ns s + 1) (set_chainKeySend (nextChainKeyOf (chainKeySend s)) s).

(** The message [encrypt] returns in state [s]. *)
Definition message_of (nonce : ArrayBuffer) (plaintext : JSString) (s : RatchetState) : EncryptedMessage :=
  {| header := {| dhPublicKey := publicPoint (dhSend s); h_pn := pn s; h_n := ns s |};
     ciphertext := aesgcm_seal (messageKeyOf (chainKeySend s)) nonce None (TextEncoder_encode plaintext);
     iv := nonce |}.

(** A message with its header replaced. *)
Definition with_header (h : Header) (m : EncryptedMessage) : EncryptedMessage :=
  {| header := h; ciphertext := ciphertext m; iv := iv m |}.

(** The outcome of [decrypt] once the message key is known. *)
Definition opened (messageKey : ArrayBuffer) (message : EncryptedMessage) : result JSString :=
  match aesgcm_open messageKey (iv message) None (ciphertext message) with
  | Some plaintext => Ok (TextDecoder_decode plaintext)
  | None => Err AuthenticationFailure
  end.

(** The state in which [decrypt] derives the message key, when the header
    key is accepted and nothing throws: after the DH ratchet step and the
    skip to the header's counter. *)
Definition at_message (seed : ArrayBuffer) (message : EncryptedMessage) (s : RatchetState)
    : RatchetState :=
  let s1 := ratchet_exit seed (imported (dhPublicKey (header message))) (header message) s in
  skip_times (Z.to_nat (h_n (header message) - nr s1)) s1.

(** The secret the responder computes in [acceptConversation], from the key
    pairs it holds and the public keys it receives. *)
Definition responder_secret (identity signedPreKeyPair : CryptoKeyPair)
    (oneTimePreKeyPair : option CryptoKeyPair) (senderIdentityKey ephemeralPublicKey : ArrayBuffer)
    : ArrayBuffer :=
  hkdf ((x25519 (privateScalar signedPreKeyPair) senderIdentityKey ++
         x25519 (privateScalar identity) ephemeralPublicKey ++
         x25519 (privateScalar signedPreKeyPair) ephemeralPublicKey) ++
        match oneTimePreKeyPair with
        | Some otk => x25519 (privateScalar otk) ephemeralPublicKey
        | None => []
        end)
       (newArrayBuffer 32) (TextEncoder_encode (js "BuddyHunt X3DH")) 32.

(** A key pair as [generateKeyPair] makes them. *)
Definition wf_pair (kp : CryptoKeyPair) : Prop :=
  publicPoint kp = publicOf (privateScalar kp).

(** The platform imports every public key it generates. *)
Definition imports_generated_keys : Prop :=
  forall seed : ArrayBuffer, import_accepted X25519_usages (publicOf seed) = true.

(** It is the turn of [x] to send to [y]: [x] has sent nothing since it
    last received, and the DH ratchet step [y] runs on the ratchet key of [x]
    reaches the root key and the sending chain of [x]. *)
Definition turn_of (x y : RatchetState) : Prop :=
  wf_pair (dhSend x) /\ ns x = 0 /\ pn x <= MAX_SKIP /\ ns y <= MAX_SKIP /\
  deriveRootChainKeys (rootKey y)
    (x25519 (privateScalar (dhSend y)) (publicPoint (dhSend x)))
  = (rootKey x, chainKeySend x).

(** The one-time prekey pair [acceptConversation] finds for an id. *)
Definition found_oneTimePreKey (k : KeyManagementService) (oneTimePreKeyId : option string)
    : option CryptoKeyPair :=
  if truthy oneTimePreKeyId then oneTimePreKeys k !! default "" oneTimePreKeyId else None.

(** The service once [acceptConversation] has removed the one-time prekey. *)
Definition without_oneTimePreKey (k : KeyManagementService) (oneTimePreKeyId : option string)
    : KeyManagementService :=
  if truthy oneTimePreKeyId
  then set_oneTimePreKeys (delete (default "" oneTimePreKeyId) (oneTimePreKeys k)) k
  else k.

(** The state after a list of [encrypt] calls. *)
Definition after_sends (sends : list (ArrayBuffer * JSString)) (s : RatchetState) : RatchetState :=
  fold_left (fun s np => snd (encrypt (fst np) (snd np) s)) sends s.

(** The value of a call that did not throw. *)
Definition value_or {A} (d : A) (r : result A) : A :=
  match r with
  | Ok a => a
  | Err _ => d
  end.

End Notions.

(** ** Concrete sessions on the reference instance *)

Section Scenario.
Local Existing Instance refPrimitives.

Definition sc_sharedKey : ArrayBuffer := ref_digest (TextEncoder_encode (js "x3dh shared secret")).
Definition sc_bobPair : CryptoKeyPair := generateKeyPair (le_split 32 12345).
Definition sc_bob0 : RatchetState := initializeBob sc_sharedKey sc_bobPair.
Definition sc_alice0 : RatchetState :=
  value_or sc_bob0 (initializeAlice (le_split 32 777) sc_sharedKey (publicPoint sc_bobPair)).
Definition sc_nonce : ArrayBuffer := le_split 12 1.
Definition sc_nonce2 : ArrayBuffer := le_split 12 2.
Definition sc_seed : ArrayBuffer := le_split 32 4242.
Definition sc_seed2 : ArrayBuffer := le_split 32 5353.

(** Alice's first message, and the same message with the lowest bit of its
    first ciphertext byte flipped. *)
Definition sc_hello : EncryptedMessage := message_of sc_nonce (js "hello") sc_alice0.

Definition flip_first (b : ArrayBuffer) : ArrayBuffer :=
  match b with
  | x :: r => byte.xor x x01 :: r
  | [] => []
  end.

Definition sc_forged : EncryptedMessage :=
  {| header := header sc_hello; ciphertext := flip_first (ciphertext sc_hello); iv := iv sc_hello |}.


(** Alice's second message and her state after two sends. *)
Definition sc_alice1 : RatchetState := snd (encrypt sc_nonce (js "hello") sc_alice0).
Definition sc_second : EncryptedMessage := message_of sc_nonce2 (js "again") sc_alice1.

(** Bob's state once he has decrypted Alice's second message first. *)
Definition sc_bob_after_second : RatchetState := snd (decrypt sc_seed sc_second sc_bob0).

(** Two messages of Alice delivered in the order they were sent. *)
Definition sc_in_order : list Send :=
  [ mkSend Alice (js "hello") sc_nonce sc_seed;
    mkSend Alice (js "again") sc_nonce2 sc_seed2 ].

(** Bob has decrypted Alice's first message and answers twice; Alice
    decrypts the first answer and sends two messages of her own. *)
Definition sc_bob1 : RatchetState := snd (decrypt sc_seed sc_hello sc_bob0).
Definition sc_reply1 : EncryptedMessage := message_of sc_nonce (js "r1") sc_bob1.
Definition sc_reply2 : EncryptedMessage :=
  message_of sc_nonce2 (js "r2") (snd (encrypt sc_nonce (js "r1") sc_bob1)).
Definition sc_alice2 : RatchetState := snd (decrypt sc_seed2 sc_reply1 sc_alice1).
Definition sc_alice3 : RatchetState :=
  after_sends [(sc_nonce, js "a"); (sc_nonce2, js "b")] sc_alice2.

(** Bob's state when the first message he decrypts is Alice's fifth: its
    receive counter is 5.  Then a message of the same chain with index
    [5 + MAX_SKIP]. *)
Definition sc_fifth : EncryptedMessage :=
  message_of sc_nonce (js "fifth")
    (after_sends (replicate 4 (sc_nonce, js "x")) sc_alice0).
Definition sc_bob5 : RatchetState := snd (decrypt sc_seed sc_fifth sc_bob0).
Definition sc_at_limit : EncryptedMessage :=
  with_header {| dhPublicKey := dhPublicKey (header sc_fifth); h_pn := 0; h_n := 1005 |} sc_fifth.

(** A conversation in which Alice and Bob take turns. *)
Definition sc_turns : list Send :=
  [ mkSend Alice (js "a1") sc_nonce (le_split 32 101);
    mkSend Bob (js "b1") sc_nonce2 (le_split 32 102);
    mkSend Alice (js "a2") sc_nonce (le_split 32 103);
    mkSend Bob (js "b2") sc_nonce2 (le_split 32 104) ].


(** A key service of Bob with an identity key, one signed prekey and one
    one-time prekey, and the key pairs of an initiator. *)
Definition sc_identityB : CryptoKeyPair := generateKeyPair (le_split 32 31337).
Definition sc_oneTimeB : CryptoKeyPair := generateKeyPair (le_split 32 2718).
Definition sc_identityA : CryptoKeyPair := generateKeyPair (le_split 32 1618).
Definition sc_ephemeralA : CryptoKeyPair := generateKeyPair (le_split 32 1414).

Definition sc_serviceB : KeyManagementService :=
  {| sessions := ∅;
     identityKeyPair := Some sc_identityB;
     preKeys := {[ "signed-1" := sc_bobPair ]};
     oneTimePreKeys := {[ "onetime-0" := sc_oneTimeB ]} |}.

Definition sc_bundleB : PreKeyBundle :=
  {| identityKey := publicPoint sc_identityB;
     signedPreKey := publicPoint sc_bobPair;
     signedPreKeySignature := [];
     oneTimePreKey := Some (publicPoint sc_oneTimeB) |}.

(** A service holding Alice's session under one handle. *)
Definition sc_sessionA : ConversationSession :=
  {| conversationId := "conv-1"; ratchet := sc_alice0; createdAt := 1000; lastUsed := 1000 |}.

Definition sc_serviceA : KeyManagementService :=
  {| sessions := {[ "conv-1" := sc_sessionA ]};
     identityKeyPair := Some sc_identityA;
     preKeys := ∅;
     oneTimePreKeys := ∅ |}.

(** The end-to-end scenario through the service interface: Alice starts a
    conversation from Bob's bundle, Bob accepts it; "hello" goes to Bob and
    "hi" comes back.  The result is what the two calls of [decryptMessage]
    return. *)
Definition sc_handshake_and_exchange : result JSString * result JSString :=
  let serviceA := {| sessions := ∅; identityKeyPair := Some sc_identityA;
                     preKeys := ∅; oneTimePreKeys := ∅ |} in
  let bundle := {| kb_identityKey := publicPoint sc_identityB;
                   kb_signedPreKey := publicPoint sc_bobPair;
                   kb_signedPreKeySignature := [];
                   kb_oneTimePreKey := Some (publicPoint sc_oneTimeB) |} in
  let '(_, serviceA1) :=
    startConversation (fun _ => bundle) 1000 "conv-A" (le_split 32 1414) (le_split 32 777)
      "bob" serviceA in
  let '(_, serviceB1) :=
    acceptConversation (fun _ => publicPoint sc_identityA) 1000 "conv-B" "alice"
      (publicPoint sc_ephemeralA) "signed-1" (Some "onetime-0") sc_serviceB in
  match encryptMessage 1001 sc_nonce "conv-A" (js "hello") serviceA1 with
  | (Ok hello, serviceA2) =>
      let '(r1, serviceB2) := decryptMessage 1002 sc_seed "conv-B" hello serviceB1 in
      match encryptMessage 1003 sc_nonce2 "conv-B" (js "hi") serviceB2 with
      | (Ok hi, _) => (r1, fst (decryptMessage 1004 sc_seed2 "conv-A" hi serviceA2))
      | (Err e, _) => (r1, Err e)
      end
  | (Err e, _) => (Err e, Err e)
  end.

End Scenario.

(** ** Proof automation *)

Ltac unfold_setters :=
  unfold set_rootKey, set_chainKeySend, set_chainKeyRecv, set_dhSend, set_dhRecv,
    set_pn, set_ns, set_nr, set_skippedKeys in *.

(** Closed goals on a concrete instance: evaluate both sides. *)
Ltac by_evaluation := vm_compute; reflexivity.

(** ** Keys *)

Lemma bytes_loop_equal_spec (a b : list byte) :
  length a = length b -> (bytes_loop_equal a b = true <-> a = b).
Proof.
  revert b. induction a as [|x a IH]; intros [|y b] Hlen; simpl in *; try discriminate.
  - split; reflexivity.
  - injection Hlen as Hlen. destruct (Byte.eqb x y) eqn:E.
    + apply Byte.byte_dec_bl in E. subst y. rewrite (IH b Hlen).
      split; [intros ->; reflexivity | intros H; injection H; auto].
    + split; [discriminate|]. intros H. injection H as -> _.
      rewrite Byte.byte_dec_lb in E by reflexivity. discriminate.
Qed.

(** Two byte strings that the length test or the byte loop tells apart. *)
Lemma bytes_differ (a b : list byte) :
  (length a =? length b)%nat && bytes_loop_equal a b = false -> a <> b.
Proof.
  intros H ->. rewrite Nat.eqb_refl in H.
  rewrite (proj2 (bytes_loop_equal_spec b b eq_refl) eq_refl) in H. discriminate H.
Qed.

Section KeyFacts.
Context `{CP : CryptoPrimitives}.

(** [exportKey] throws on a key that is not extractable, and [areKeysEqual]
    turns that into [false], whatever the other key is. *)
Lemma areKeysEqual_not_extractable (key1 key2 : CryptoKey) :
  extractable key1 = false \/ extractable key2 = false ->
  areKeysEqual key1 key2 = false.
Proof.
  unfold areKeysEqual, exportKey. intros [H|H]; rewrite H; [reflexivity|].
  destruct (extractable key1); reflexivity.
Qed.


(** What [importKey] returns when the platform accepts the key. *)
Lemma importKey_eq keyData keyUsages :
  importKey keyData false keyUsages =
  if import_accepted keyUsages keyData then Ok (imported keyData) else Err CryptoError.
Proof. reflexivity. Qed.

Lemma importKey_accepted keyData keyUsages :
  import_accepted keyUsages keyData = true ->
  importKey keyData false keyUsages = Ok (imported keyData).
Proof. intros H. rewrite importKey_eq, H. reflexivity. Qed.

Lemma importKey_rejected keyData keyUsages :
  import_accepted keyUsages keyData = false ->
  importKey keyData false keyUsages = Err CryptoError.
Proof. intros H. rewrite importKey_eq, H. reflexivity. Qed.

(** Under the rule on key usages every [importKey] of the classes throws. *)
Lemma importKey_usages_rule keyData :
  public_key_usages_rule -> importKey keyData false X25519_usages = Err CryptoError.
Proof. intros Hrule. apply importKey_rejected, Hrule. discriminate. Qed.

(** The key [decrypt] imports from a header is never found equal to the
    remote key of the state: the DH ratchet test is always positive. *)
Lemma needsDHRatchet_imported s keyData :
  needsDHRatchet s (imported keyData) = true.
Proof.
  unfold needsDHRatchet. destruct (dhRecv s) as [k|]; [|reflexivity].
  rewrite areKeysEqual_not_extractable; [reflexivity | left; reflexivity].
Qed.

End KeyFacts.

(** ** The steps of the ratchet *)

Section RatchetFacts.
Context `{CP : CryptoPrimitives}.

Lemma skip_one_fields s :
  nr (skip_one s) = nr s + 1 /\
  chainKeyRecv (skip_one s) = nextChainKeyOf (chainKeyRecv s) /\
  skippedKeys (skip_one s) = <[pretty (nr s) := messageKeyOf (chainKeyRecv s)]> (skippedKeys s) /\
  ns (skip_one s) = ns s /\ pn (skip_one s) = pn s /\
  rootKey (skip_one s) = rootKey s /\ chainKeySend (skip_one s) = chainKeySend s /\
  dhSend (skip_one s) = dhSend s /\ dhRecv (skip_one s) = dhRecv s.
Proof. repeat split. Qed.

Lemma skip_times_fields k : forall s,
  nr (skip_times k s) = nr s + Z.of_nat k /\
  chainKeyRecv (skip_times k s) = chain_advance k (chainKeyRecv s) /\
  ns (skip_times k s) = ns s /\ pn (skip_times k s) = pn s /\
  rootKey (skip_times k s) = rootKey s /\ chainKeySend (skip_times k s) = chainKeySend s /\
  dhSend (skip_times k s) = dhSend s /\ dhRecv (skip_times k s) = dhRecv s.
Proof.
  induction k as [|k IH]; intros s.
  - simpl. repeat split; lia.
  - cbn [skip_times chain_advance]. destruct (IH (skip_one s)) as (H1 & H2 & H3 & H4 & H5 & H6 & H7 & H8).
    rewrite H1, H2, H3, H4, H5, H6, H7, H8.
    destruct (skip_one_fields s) as (G1 & G2 & _ & G4 & G5 & G6 & G7 & G8 & G9).
    rewrite G1, G2, G4, G5, G6, G7, G8, G9. repeat split; lia.
Qed.

Lemma skip_times_none (z : Z) s : z <= 0 -> skip_times (Z.to_nat z) s = s.
Proof. intros H. replace (Z.to_nat z) with O by lia. reflexivity. Qed.

(** The loop stops by itself within [until - nr] turns. *)
Lemma skip_loop_times fuel : forall until s,
  (Z.to_nat (until - nr s) <= fuel)%nat ->
  skip_loop fuel until s = skip_times (Z.to_nat (until - nr s)) s.
Proof.
  induction fuel as [|fuel IH]; intros u s Hfuel.
  - simpl. replace (Z.to_nat (u - nr s)) with O by lia. reflexivity.
  - cbn [skip_loop]. destruct (Z.ltb_spec (nr s) u) as [Hlt|Hge].
    + replace (Z.to_nat (u - nr s)) with (S (Z.to_nat (u - nr (skip_one s))))
        by (destruct (skip_one_fields s) as [-> _]; lia).
      cbn [skip_times]. apply IH.
      destruct (skip_one_fields s) as [-> _]. lia.
    + replace (Z.to_nat (u - nr s)) with O by lia. reflexivity.
Qed.

Lemma skipMessageKeys_eq until s :
  skipMessageKeys until s =
  if nr s + MAX_SKIP <? until then (Err SkippedTooMany, s)
  else (Ok tt, skip_times (Z.to_nat (until - nr s)) s).
Proof.
  unfold skipMessageKeys, bind, get. destruct (nr s + MAX_SKIP <? until); [reflexivity|].
  unfold modify. rewrite skip_loop_times by lia. reflexivity.
Qed.

Lemma performDHRatchet_eq seed k h s :
  performDHRatchet seed k h s =
  if MAX_SKIP <? h_pn h then (Err SkippedTooMany, ratchet_entry k s)
  else (Ok tt, ratchet_exit seed k h s).
Proof.
  unfold performDHRatchet. unfold bind at 1 2 3 4 5. unfold modify at 1 2 3 4.
  fold (ratchet_entry k s). rewrite skipMessageKeys_eq.
  change (nr (ratchet_entry k s)) with 0. rewrite Z.add_0_l, Z.sub_0_r.
  destruct (MAX_SKIP <? h_pn h); [reflexivity|].
  destruct (skip_times_fields (Z.to_nat (h_pn h)) (ratchet_entry k s))
    as (_ & _ & H3 & H4 & H5 & H6 & H7 & H8).
  unfold bind, get, modify, ratchet_exit. unfold_setters. cbn.
  rewrite H3, H4, H5, H7, H8. reflexivity.
Qed.

(** The counter [performDHRatchet] returns with: the keys of the old chain
    it derived, counted from 0. *)
Lemma ratchet_exit_fields seed k h s :
  nr (ratchet_exit seed k h s) = Z.max 0 (h_pn h) /\
  ns (ratchet_exit seed k h s) = 0 /\
  pn (ratchet_exit seed k h s) = ns s /\
  dhSend (ratchet_exit seed k h s) = generateKeyPair seed /\
  dhRecv (ratchet_exit seed k h s) = Some k.
Proof.
  unfold ratchet_exit. cbn [nr ns pn dhSend dhRecv].
  destruct (skip_times_fields (Z.to_nat (h_pn h)) (ratchet_entry k s)) as (H1 & _).
  rewrite H1. cbn. repeat split. lia.
Qed.

Lemma recv_advance_fields s :
  nr (recv_advance s) = nr s + 1 /\
  chainKeyRecv (recv_advance s) = nextChainKeyOf (chainKeyRecv s) /\
  ns (recv_advance s) = ns s /\ pn (recv_advance s) = pn s /\
  rootKey (recv_advance s) = rootKey s /\ chainKeySend (recv_advance s) = chainKeySend s /\
  dhSend (recv_advance s) = dhSend s /\ dhRecv (recv_advance s) = dhRecv s /\
  skippedKeys (recv_advance s) = skippedKeys s.
Proof. repeat split. Qed.

Lemma decrypt_resolveKey seed message s :
  decrypt seed message s =
  match resolveKey seed message s with
  | (Ok messageKey, s') => (opened messageKey message, s')
  | (Err e, s') => (Err e, s')
  end.
Proof.
  unfold decrypt, resolveKey, opened, bind, lift, get, modify, ret, decryptAESGCM, throw.
  destruct (importKey _ _ _) as [k|e]; [|reflexivity].
  destruct (if needsDHRatchet s _ then _ else _) as [[[]|e] s1]; [|reflexivity].
  destruct (skipMessageKeys _ s1) as [[[]|e] s2]; [|reflexivity].
  cbn. destruct (aesgcm_open _ _ _ _); reflexivity.
Qed.

(** A header key the platform rejects: [decrypt] throws before it touches
    the state. *)
Lemma resolveKey_rejected seed message s :
  import_accepted X25519_usages (dhPublicKey (header message)) = false ->
  resolveKey seed message s = (Err CryptoError, s).
Proof.
  intros H. unfold resolveKey, bind, lift. rewrite importKey_rejected by exact H. reflexivity.
Qed.

(** A header key the platform accepts: the DH ratchet step runs, then the
    skip to the header's counter, then the chain moves past the message. *)
Lemma resolveKey_accepted seed message s :
  import_accepted X25519_usages (dhPublicKey (header message)) = true ->
  resolveKey seed message s =
  let k := imported (dhPublicKey (header message)) in
  if MAX_SKIP <? h_pn (header message) then (Err SkippedTooMany, ratchet_entry k s)
  else
    let s1 := ratchet_exit seed k (header message) s in
    if nr s1 + MAX_SKIP <? h_n (header message) then (Err SkippedTooMany, s1)
    else
      let s2 := at_message seed message s in
      (Ok (messageKeyOf (chainKeyRecv s2)), recv_advance s2).
Proof.
  intros H. unfold resolveKey, bind, lift. rewrite importKey_accepted by exact H.
  unfold get. rewrite needsDHRatchet_imported, performDHRatchet_eq.
  destruct (MAX_SKIP <? h_pn (header message)); [reflexivity|].
  cbv zeta. rewrite skipMessageKeys_eq.
  destruct (_ <? h_n (header message)); reflexivity.
Qed.

Lemma decrypt_rejected seed message s :
  import_accepted X25519_usages (dhPublicKey (header message)) = false ->
  decrypt seed message s = (Err CryptoError, s).
Proof. intros H. rewrite decrypt_resolveKey, resolveKey_rejected by exact H. reflexivity. Qed.

Lemma decrypt_accepted seed message s :
  import_accepted X25519_usages (dhPublicKey (header message)) = true ->
  decrypt seed message s =
  let k := imported (dhPublicKey (header message)) in
  if MAX_SKIP <? h_pn (header message) then (Err SkippedTooMany, ratchet_entry k s)
  else
    let s1 := ratchet_exit seed k (header message) s in
    if nr s1 + MAX_SKIP <? h_n (header message) then (Err SkippedTooMany, s1)
    else
      let s2 := at_message seed message s in
      (opened (messageKeyOf (chainKeyRecv s2)) message, recv_advance s2).
Proof.
  intros H. rewrite decrypt_resolveKey, resolveKey_accepted by exact H. cbv zeta.
  destruct (MAX_SKIP <? h_pn (header message)); [reflexivity|].
  destruct (_ <? h_n (header message)); reflexivity.
Qed.

(** The counter at which [decrypt] derives the message key. *)
Lemma at_message_nr seed message s :
  Z.max 0 (h_pn (header message)) <= nr (at_message seed message s) /\
  (Z.max 0 (h_pn (header message)) <= h_n (header message) ->
   nr (at_message seed message s) = h_n (header message)) /\
  (h_n (header message) <= Z.max 0 (h_pn (header message)) ->
   nr (at_message seed message s) = Z.max 0 (h_pn (header message))) /\
  ns (at_message seed message s) = 0 /\
  pn (at_message seed message s) = ns s /\
  dhSend (at_message seed message s) = generateKeyPair seed /\
  dhRecv (at_message seed message s) = Some (imported (dhPublicKey (header message))).
Proof.
  unfold at_message. cbv zeta.
  set (s1 := ratchet_exit seed (imported (dhPublicKey (header message))) (header message) s).
  destruct (ratchet_exit_fields seed (imported (dhPublicKey (header message))) (header message) s)
    as (H1 & H2 & H3 & H4 & H5). fold s1 in H1, H2, H3, H4, H5.
  destruct (skip_times_fields (Z.to_nat (h_n (header message) - nr s1)) s1)
    as (G1 & _ & G3 & G4 & _ & _ & G7 & G8).
  rewrite G1, G3, G4, G7, G8, H1, H2, H3, H4, H5.
  repeat split; lia.
Qed.

Lemma encrypt_eq nonce plaintext s :
  encrypt nonce plaintext s = (Ok (message_of nonce plaintext s), send_advance s).
Proof. reflexivity. Qed.

Lemma send_advance_fields s :
  ns (send_advance s) = ns s + 1 /\
  chainKeySend (send_advance s) = nextChainKeyOf (chainKeySend s) /\
  nr (send_advance s) = nr s /\ pn (send_advance s) = pn s /\
  rootKey (send_advance s) = rootKey s /\ chainKeyRecv (send_advance s) = chainKeyRecv s /\
  dhSend (send_advance s) = dhSend s /\ dhRecv (send_advance s) = dhRecv s /\
  skippedKeys (send_advance s) = skippedKeys s.
Proof. repeat split. Qed.

(** Sending leaves the receiving side, the root key and the key pairs. *)
Lemma after_sends_fields sends : forall s,
  chainKeyRecv (after_sends sends s) = chainKeyRecv s /\
  dhRecv (after_sends sends s) = dhRecv s /\
  nr (after_sends sends s) = nr s /\
  dhSend (after_sends sends s) = dhSend s /\
  rootKey (after_sends sends s) = rootKey s /\
  ns (after_sends sends s) = ns s + Z.of_nat (length sends).
Proof.
  induction sends as [|[nonce p] sends IH]; intros s.
  - cbn. repeat split. lia.
  - unfold after_sends in *. cbn [fold_left fst snd length].
    destruct (IH (snd (encrypt nonce p s))) as (H1 & H2 & H3 & H4 & H5 & H6).
    rewrite H1, H2, H3, H4, H5, H6, encrypt_eq. cbn. repeat split. lia.
Qed.

End RatchetFacts.


(** ** The reference instances satisfy the facts the theorems assume *)

Lemma byte_high_bit (a : byte) (n : Z) : 8 <= n -> Z.testbit (byte.unsigned a) n = false.
Proof.
  intros Hn. rewrite <- (byte.wrap_unsigned a). unfold byte.wrap.
  apply Z.mod_pow2_bits_high. lia.
Qed.

Lemma byte_lxor_wrap (a b : byte) :
  byte.wrap (Z.lxor (byte.unsigned a) (byte.unsigned b)) = Z.lxor (byte.unsigned a) (byte.unsigned b).
Proof.
  unfold byte.wrap. rewrite <- Z.land_ones by lia.
  apply Z.bits_inj'. intros n Hn.
  rewrite Z.land_spec, Z.lxor_spec, Z.testbit_ones_nonneg by lia.
  destruct (Z.ltb_spec n 8) as [Hlt|Hge].
  - apply andb_true_r.
  - rewrite !byte_high_bit by lia. reflexivity.
Qed.

Lemma byte_xor_cancel (a b : byte) : byte.xor (byte.xor a b) b = a.
Proof.
  unfold byte.xor. rewrite byte.unsigned_of_Z, byte_lxor_wrap.
  rewrite Z.lxor_assoc, Z.lxor_nilpotent, Z.lxor_0_r.
  apply byte.of_Z_unsigned.
Qed.

Lemma ref_xor_cancel (p ks : ArrayBuffer) :
  length p = length ks -> ref_xor (ref_xor p ks) ks = p.
Proof.
  revert ks. induction p as [|x p IH]; intros [|k ks] Hlen; simpl in *; try discriminate.
  - reflexivity.
  - injection Hlen as Hlen. unfold ref_xor in *. rewrite byte_xor_cancel. f_equal. apply IH, Hlen.
Qed.

Lemma ref_keystream_length key nonce len : length (ref_keystream key nonce len) = len.
Proof. unfold ref_keystream. rewrite length_map. apply length_seq. Qed.

Lemma ref_xor_length (p ks : ArrayBuffer) : length p = length ks -> length (ref_xor p ks) = length p.
Proof. intros H. unfold ref_xor. rewrite length_zip_with. lia. Qed.

Lemma ref_digest_length data : length (ref_digest data) = 32%nat.
Proof. unfold ref_digest. apply length_le_split. Qed.

Lemma ref_tag_length key nonce ad body : length (ref_tag key nonce ad body) = 16%nat.
Proof.
  unfold ref_tag, ref_hmac. rewrite length_take, ref_digest_length. reflexivity.
Qed.

Lemma ref_aead_correct : @aead_correct refPrimitives.
Proof.
  intros key nonce ad p. cbn [aesgcm_open aesgcm_seal refPrimitives].
  unfold ref_open, ref_seal.
  set (body := ref_xor p (ref_keystream key nonce (length p))).
  assert (Hbody : length body = length p)
    by (apply ref_xor_length; symmetry; apply ref_keystream_length).
  rewrite length_app, ref_tag_length.
  replace (length body + 16 - 16)%nat with (length body) by lia.
  destruct (Nat.ltb_spec (length body + 16) 16) as [Hlt|_]; [lia|].
  rewrite take_app_length, drop_app_length.
  assert (Heq : bytes_loop_equal (ref_tag key nonce ad body) (ref_tag key nonce ad body) = true)
    by (apply bytes_loop_equal_spec; reflexivity).
  rewrite Heq, Hbody. f_equal. apply ref_xor_cancel.
  symmetry. apply ref_keystream_length.
Qed.

Lemma ref_p_pos : 0 < ref_p.
Proof. reflexivity. Qed.

Lemma ref_pow_fits (g e : Z) : le_combine (le_split 32 (Zpow_mod g e ref_p)) = g ^ e mod ref_p.
Proof.
  rewrite le_combine_split, Zpow_mod_correct by (intros H; discriminate H).
  apply Z.mod_small.
  pose proof (Z.mod_pos_bound (g ^ e) ref_p ref_p_pos) as Hb.
  split; [apply Hb|]. eapply Z.lt_trans; [apply Hb|]. reflexivity.
Qed.

Lemma ref_dh_agreement : @dh_agreement refPrimitives.
Proof.
  intros a b. cbn [x25519 publicOf refPrimitives].
  unfold ref_dh, ref_publicOf. f_equal.
  rewrite !ref_pow_fits.
  rewrite !Zpow_mod_correct by (intros H; discriminate H).
  pose proof (le_combine_bound a) as [Ha _]. pose proof (le_combine_bound b) as [Hb _].
  rewrite <- !(Zpower_mod _ _ _ ref_p_pos), <- !Z.pow_mul_r by assumption.
  f_equal. f_equal. apply Z.mul_comm.
Qed.


Lemma strict_aead_correct : @aead_correct strictPrimitives.
Proof. exact ref_aead_correct. Qed.

Lemma strict_dh_agreement : @dh_agreement strictPrimitives.
Proof. exact ref_dh_agreement. Qed.

Lemma strict_usages_rule : @public_key_usages_rule strictPrimitives.
Proof. intros [|u us] keyData H; [contradiction | reflexivity]. Qed.

(** ** Authentication failure *)

Section DecryptFacts.
Context `{CP : CryptoPrimitives}.


(** The state [decrypt] leaves is the state [resolveKey] leaves. *)
Lemma decrypt_state seed message s :
  snd (decrypt seed message s) = snd (resolveKey seed message s).
Proof.
  rewrite decrypt_resolveKey. destruct (resolveKey seed message s) as [[mk|e] s']; reflexivity.
Qed.

Lemma at_message_nr_max seed message s :
  nr (at_message seed message s) =
  Z.max (Z.max 0 (h_pn (header message))) (h_n (header message)).
Proof.
  destruct (at_message_nr seed message s) as (_ & Hup & Hdown & _).
  destruct (Z.le_ge_cases (Z.max 0 (h_pn (header message))) (h_n (header message))) as [H|H].
  - rewrite (Hup H). lia.
  - rewrite (Hdown H). lia.
Qed.

(** A header counter that the DH ratchet step has already passed: the
    message key is the first key of the new receiving chain. *)
Lemma decrypt_first_key seed message s :
  import_accepted X25519_usages (dhPublicKey (header message)) = true ->
  h_pn (header message) <= MAX_SKIP ->
  h_n (header message) <= Z.max 0 (h_pn (header message)) ->
  let s1 := ratchet_exit seed (imported (dhPublicKey (header message))) (header message) s in
  at_message seed message s = s1 /\
  chainKeyRecv s1 =
    snd (deriveRootChainKeys (rootKey s)
           (x25519 (privateScalar (dhSend s)) (dhPublicKey (header message)))) /\
  resolveKey seed message s = (Ok (messageKeyOf (chainKeyRecv s1)), recv_advance s1) /\
  decrypt seed message s = (opened (messageKeyOf (chainKeyRecv s1)) message, recv_advance s1).
Proof.
  intros Hacc Hpn Hn s1.
  destruct (ratchet_exit_fields seed (imported (dhPublicKey (header message))) (header message) s)
    as (Hnr & _). fold s1 in Hnr.
  assert (Hat : at_message seed message s = s1).
  { unfold at_message. cbv zeta. fold s1. rewrite Hnr. apply skip_times_none. lia. }
  split; [exact Hat|]. split; [reflexivity|].
  rewrite decrypt_accepted, resolveKey_accepted by exact Hacc. cbv zeta.
  destruct (Z.ltb_spec MAX_SKIP (h_pn (header message))) as [H|_]; [lia|].
  fold s1. rewrite Hnr, Hat.
  destruct (Z.ltb_spec (Z.max 0 (h_pn (header message)) + MAX_SKIP) (h_n (header message)))
    as [H|_]; [unfold MAX_SKIP in H; lia|].
  split; reflexivity.
Qed.

End DecryptFacts.


(** ** The responder sends first *)


(** ** The header is not authenticated *)

Section HeaderFacts.
Context `{CP : CryptoPrimitives}.

(** What [encrypt] sealed opens under the key it was sealed with, whatever
    the header. *)
Lemma opened_sealed (Haead : aead_correct) key nonce plaintext h :
  opened key {| header := h;
                ciphertext := aesgcm_seal key nonce None (TextEncoder_encode plaintext);
                iv := nonce |} = Ok (TextDecoder_decode (TextEncoder_encode plaintext)).
Proof. unfold opened. cbn [iv ciphertext]. rewrite Haead. reflexivity. Qed.

(** The state [initializeAlice] assigns. *)
Lemma initializeAlice_Ok seed sharedKey remotePublicKey alice :
  initializeAlice seed sharedKey remotePublicKey = Ok alice ->
  import_accepted X25519_usages remotePublicKey = true /\
  alice =
    {| rootKey := fst (deriveRootChainKeys sharedKey (x25519 seed remotePublicKey));
       chainKeySend := snd (deriveRootChainKeys sharedKey (x25519 seed remotePublicKey));
       chainKeyRecv := newArrayBuffer 32;
       dhSend := generateKeyPair seed;
       dhRecv := Some (imported remotePublicKey);
       pn := 0; ns := 0; nr := 0;
       skippedKeys := ∅ |}.
Proof.
  unfold initializeAlice. rewrite importKey_eq.
  destruct (import_accepted X25519_usages remotePublicKey); [|discriminate].
  cbn [and_then]. intros H. split; [reflexivity|].
  unfold deriveSharedSecret in H. cbn [raw privateKey generateKeyPair privateScalar imported] in H.
  destruct (deriveRootChainKeys sharedKey (x25519 seed remotePublicKey)).
  injection H as <-. reflexivity.
Qed.

Lemma initializeAlice_rejected seed sharedKey remotePublicKey :
  import_accepted X25519_usages remotePublicKey = false ->
  initializeAlice seed sharedKey remotePublicKey = Err CryptoError.
Proof. intros H. unfold initializeAlice. rewrite importKey_rejected by exact H. reflexivity. Qed.

Lemma initializeAlice_accepted seed sharedKey remotePublicKey :
  import_accepted X25519_usages remotePublicKey = true ->
  exists alice, initializeAlice seed sharedKey remotePublicKey = Ok alice.
Proof.
  intros H. unfold initializeAlice. rewrite importKey_accepted by exact H. cbn [and_then].
  destruct (deriveRootChainKeys _ _). eexists. reflexivity.
Qed.

End HeaderFacts.

(** C9.  [encrypt] seals the plaintext with no associated data, so the
    header is not bound to the ciphertext: whatever header replaces the
    original one, the tag still verifies under the same message key and the
    text [TextDecoder] reads from the plaintext bytes comes back.  For the
    first message of a session this is visible end to end: with the
    previous-chain length of its header replaced by any value up to
    [MAX_SKIP], the receiver's [decrypt] accepts it and returns that text, on
    any platform that imports the sender's ratchet key. *)
Theorem header_not_bound_to_ciphertext `{CP : CryptoPrimitives}
    (Haead : aead_correct) (Hdh : dh_agreement) :
  (forall (s : RatchetState) (nonce : ArrayBuffer) (plaintext : JSString),
     exists message,
       fst (encrypt nonce plaintext s) = Ok message /\
       (ciphertext message, iv message) =
         encryptAESGCM nonce (messageKeyOf (chainKeySend s)) (TextEncoder_encode plaintext) None /\
       forall h' : Header,
         opened (messageKeyOf (chainKeySend s)) (with_header h' message) =
           Ok (TextDecoder_decode (TextEncoder_encode plaintext))) /\
  (forall (sharedKey : ArrayBuffer) (keyPair : CryptoKeyPair) (aliceSeed nonce seed : ArrayBuffer)
          (plaintext : JSString) (pn' : Z) (alice : RatchetState),
     wf_pair keyPair -> pn' <= MAX_SKIP ->
     initializeAlice aliceSeed sharedKey (publicPoint keyPair) = Ok alice ->
     let bob := initializeBob sharedKey keyPair in
     exists message,
       fst (encrypt nonce plaintext alice) = Ok message /\
       fst (decrypt seed
              (with_header {| dhPublicKey := dhPublicKey (header message);
                              h_pn := pn';
                              h_n := h_n (header message) |} message) bob) =
         if import_accepted X25519_usages (publicOf aliceSeed)
         then Ok (TextDecoder_decode (TextEncoder_encode plaintext))
         else Err CryptoError).
Proof.
  split.
  - intros s nonce plaintext. exists (message_of nonce plaintext s).
    split; [reflexivity|]. split; [reflexivity|].
    intros h'. apply (opened_sealed Haead).
  - intros sharedKey keyPair aliceSeed nonce seed plaintext pn' alice Hwf Hpn Hinit bob.
    apply initializeAlice_Ok in Hinit. destruct Hinit as [_ Halice].
    assert (Hns : ns alice = 0) by (subst alice; reflexivity).
    assert (Hsend : dhSend alice = generateKeyPair aliceSeed) by (subst alice; reflexivity).
    assert (Hck : chainKeySend alice =
                  snd (deriveRootChainKeys sharedKey (x25519 aliceSeed (publicPoint keyPair))))
      by (subst alice; reflexivity).
    clear Halice.
    exists (message_of nonce plaintext alice). split; [reflexivity|].
    cbn [header message_of with_header dhPublicKey h_n ciphertext iv].
    rewrite Hns, Hsend. cbn [generateKeyPair publicPoint].
    destruct (import_accepted X25519_usages (publicOf aliceSeed)) eqn:Hacc.
    + match goal with |- fst (decrypt seed ?m bob) = _ =>
        destruct (decrypt_first_key seed m bob) as (_ & Hchain & _ & Hdec);
          [ exact Hacc | exact Hpn | cbn [header with_header h_pn h_n]; lia | ]
      end.
      cbn [header with_header dhPublicKey] in Hchain, Hdec. rewrite Hchain in Hdec.
      rewrite Hdec. unfold with_header, message_of.
      cbn [fst bob initializeBob rootKey dhSend ciphertext iv privateScalar].
      unfold wf_pair in Hwf. rewrite Hck, Hwf, <- Hdh. apply (opened_sealed Haead).
    + rewrite decrypt_rejected by exact Hacc. reflexivity.
Qed.

(** ** X3DH *)

Section X3DHFacts.
Context `{CP : CryptoPrimitives}.

(** The first [importKey] of [performX3DH] decides whether it throws. *)
Lemma importRemoteKeys_rejected bundle :
  import_accepted X25519_usages (identityKey bundle) = false ->
  importRemoteKeys bundle = Err CryptoError.
Proof.
  intros H. unfold importRemoteKeys. rewrite importKey_rejected by exact H. reflexivity.
Qed.

Lemma importRemoteKeys_accepted bundle :
  import_accepted X25519_usages (identityKey bundle) = true ->
  import_accepted X25519_usages (signedPreKey bundle) = true ->
  from_option (fun otk => import_accepted X25519_usages otk = true) True (oneTimePreKey bundle) ->
  importRemoteKeys bundle =
    Ok {| remoteIdentityKey := imported (identityKey bundle);
          remoteSignedPreKey := imported (signedPreKey bundle);
          remoteOneTimePreKey := imported <$> oneTimePreKey bundle |}.
Proof.
  intros Hi Hs Ho. unfold importRemoteKeys. rewrite !importKey_accepted by assumption.
  cbn [and_then]. destruct (oneTimePreKey bundle) as [otk|]; cbn in Ho |- *.
  - rewrite importKey_accepted by exact Ho. reflexivity.
  - reflexivity.
Qed.

(** What [acceptConversation] leaves of the service when an [importKey]
    throws: the one-time prekey is gone, no session is registered. *)
Lemma acceptConversation_rejected fetchIdentityKey now newId senderUserId ephemeralPublicKey
    signedPreKeyId oneTimePreKeyId k signedPreKeyPair :
  preKeys k !! signedPreKeyId = Some signedPreKeyPair ->
  import_accepted X25519_usages ephemeralPublicKey = false ->
  acceptConversation fetchIdentityKey now newId senderUserId ephemeralPublicKey
    signedPreKeyId oneTimePreKeyId k =
  (Err CryptoError,
   if truthy oneTimePreKeyId
   then set_oneTimePreKeys (delete (default "" oneTimePreKeyId) (oneTimePreKeys k)) k
   else k).
Proof.
  intros Hspk Hrej. unfold acceptConversation, bind, get. rewrite Hspk.
  destruct (truthy oneTimePreKeyId); unfold modify, ret, lift;
    rewrite importKey_rejected by exact Hrej; reflexivity.
Qed.

Lemma dh_swap (Hdh : dh_agreement) (x y : CryptoKeyPair) :
  wf_pair x -> wf_pair y ->
  x25519 (privateScalar x) (publicPoint y) = x25519 (privateScalar y) (publicPoint x).
Proof. unfold wf_pair. intros -> ->. apply Hdh. Qed.

End X3DHFacts.

(** C3, on the code.  Both sides of the handshake start by importing raw
    public keys with the usages [deriveKey] and [deriveBits].  On a platform
    that follows the Web Cryptography rule for raw X25519 public keys, every
    such [importKey] throws: [performX3DH] derives no secret, whatever the
    key sets, and [acceptConversation] throws after it has removed the
    one-time prekey from the pool and registers no session. *)
Theorem x3dh_imports_rejected `{CP : CryptoPrimitives} (Hrule : public_key_usages_rule)
    (identity ephemeral : CryptoKeyPair) (remotePreKeyBundle : PreKeyBundle)
    (k : KeyManagementService) (fetchIdentityKey : string -> ArrayBuffer) (now : Z)
    (newId senderUserId : string) (ephemeralPublicKey : ArrayBuffer)
    (signedPreKeyId : string) (oneTimePreKeyId : option string)
    (signedPreKeyPair : CryptoKeyPair) :
  preKeys k !! signedPreKeyId = Some signedPreKeyPair ->
  let r := acceptConversation fetchIdentityKey now newId senderUserId ephemeralPublicKey
             signedPreKeyId oneTimePreKeyId k in
  performX3DH identity ephemeral remotePreKeyBundle = Err CryptoError /\
  fst r = Err CryptoError /\
  sessions (snd r) = sessions k /\
  oneTimePreKeys (snd r) =
    (if truthy oneTimePreKeyId
     then delete (default "" oneTimePreKeyId) (oneTimePreKeys k)
     else oneTimePreKeys k) /\
  identityKeyPair (snd r) = identityKeyPair k /\ preKeys (snd r) = preKeys k.
Proof.
  intros Hspk r. subst r. split.
  - unfold performX3DH. rewrite importRemoteKeys_rejected; [reflexivity|].
    apply Hrule. discriminate.
  - rewrite (acceptConversation_rejected _ _ _ _ _ _ _ _ _ Hspk)
      by (apply Hrule; discriminate).
    cbn [fst snd]. destruct (truthy oneTimePreKeyId); repeat split.
Qed.

(** Where the platform accepts the public keys, the initiator's
    [performX3DH] and the responder's computation in [acceptConversation]
    give the same secret, with a one-time prekey and without: the HKDF, with
    a 32-byte zero salt and the info string "BuddyHunt X3DH", of DH1, DH2,
    DH3 and, if present, DH4 concatenated in that order. *)
Lemma x3dh_secrets_agree_where_imported `{CP : CryptoPrimitives} (Hdh : dh_agreement)
    (ikA ekA ikB spkB : CryptoKeyPair) (opkB : option CryptoKeyPair)
    (k : KeyManagementService) (fetchIdentityKey : string -> ArrayBuffer)
    (now : Z) (newId senderUserId signedPreKeyId : string)
    (oneTimePreKeyId : option string) (signature : ArrayBuffer) :
  wf_pair ikA -> wf_pair ekA -> wf_pair ikB -> wf_pair spkB ->
  from_option wf_pair True opkB ->
  identityKeyPair k = Some ikB ->
  preKeys k !! signedPreKeyId = Some spkB ->
  (if truthy oneTimePreKeyId
   then oneTimePreKeys k !! default "" oneTimePreKeyId else None) = opkB ->
  fetchIdentityKey senderUserId = publicPoint ikA ->
  import_accepted X25519_usages (publicPoint ikA) = true ->
  import_accepted X25519_usages (publicPoint ekA) = true ->
  import_accepted X25519_usages (publicPoint ikB) = true ->
  import_accepted X25519_usages (publicPoint spkB) = true ->
  from_option (fun o => import_accepted X25519_usages (publicPoint o) = true) True opkB ->
  let bundle := {| identityKey := publicPoint ikB;
                   signedPreKey := publicPoint spkB;
                   signedPreKeySignature := signature;
                   oneTimePreKey := publicPoint <$> opkB |} in
  let secret := responder_secret ikB spkB opkB (publicPoint ikA) (publicPoint ekA) in
  performX3DH ikA ekA bundle = Ok secret /\
  exists k',
    acceptConversation fetchIdentityKey now newId senderUserId (publicPoint ekA)
      signedPreKeyId oneTimePreKeyId k = (Ok newId, k') /\
    sessions k' !! newId =
      Some {| conversationId := newId; ratchet := initializeBob secret spkB;
              createdAt := now; lastUsed := now |}.
Proof.
  intros HikA HekA HikB HspkB HopkB Hid Hspk Hopk Hfetch AikA AekA AikB AspkB AopkB bundle secret.
  split.
  - unfold performX3DH. rewrite importRemoteKeys_accepted; cbn [identityKey signedPreKey oneTimePreKey bundle].
    + cbn [and_then]. f_equal. unfold deriveX3DH, secret, responder_secret, deriveSharedSecret, x3dh_info.
      cbn [remoteIdentityKey remoteSignedPreKey remoteOneTimePreKey raw privateKey imported].
      rewrite (dh_swap Hdh ikA spkB), (dh_swap Hdh ekA ikB), (dh_swap Hdh ekA spkB) by assumption.
      destruct opkB as [o|]; cbn [fmap option_fmap option_map raw imported from_option] in *.
      * rewrite (dh_swap Hdh ekA o) by assumption. reflexivity.
      * rewrite app_nil_r. reflexivity.
    + exact AikB.
    + exact AspkB.
    + destruct opkB as [o|]; [exact AopkB | exact I].
  - unfold acceptConversation, bind, get. rewrite Hspk, Hopk.
    assert (Hstep : forall k0 : KeyManagementService, identityKeyPair k0 = Some ikB ->
      exists k',
        (do ephemeralKey <~ lift (importKey (publicPoint ekA) false X25519_usages) ;;
         do senderIdentity <~ lift (importKey (fetchIdentityKey senderUserId) false X25519_usages) ;;
         let dh1 := deriveSharedSecret (privateKey spkB) senderIdentity in
         do identityPriv <~ identityPrivateKey ;;
         let dh2 := deriveSharedSecret identityPriv ephemeralKey in
         let dh3 := deriveSharedSecret (privateKey spkB) ephemeralKey in
         let sharedSecrets := dh1 ++ dh2 ++ dh3 in
         let sharedSecrets :=
           match opkB with
           | Some otk =>
               let dh4 := deriveSharedSecret (privateKey otk) ephemeralKey in
               sharedSecrets ++ dh4
           | None => sharedSecrets
           end in
         let sharedKey :=
           hkdf sharedSecrets (newArrayBuffer 32) (TextEncoder_encode (js "BuddyHunt X3DH")) 32 in
         let ratchet := initializeBob sharedKey spkB in
         let conversationId := newId in
         do _ <~ modify (fun k => set_sessions
               (<[conversationId := {| conversationId := conversationId; ratchet := ratchet;
                                       createdAt := now; lastUsed := now |}]> (sessions k)) k) ;;
         ret conversationId) k0 = (Ok newId, k') /\
        sessions k' !! newId =
          Some {| conversationId := newId; ratchet := initializeBob secret spkB;
                  createdAt := now; lastUsed := now |}).
    { intros k0 Hid0. unfold bind, lift. rewrite Hfetch, !importKey_accepted by assumption.
      unfold identityPrivateKey, bind, get. rewrite Hid0. unfold ret, modify.
      eexists. split; [reflexivity|].
      cbn [sessions set_sessions]. rewrite lookup_insert_eq. f_equal. f_equal.
      unfold secret, responder_secret, deriveSharedSecret.
      cbn [raw privateKey imported].
      destruct opkB; rewrite ?app_nil_r; reflexivity. }
    destruct (truthy oneTimePreKeyId); unfold modify, ret; apply Hstep; exact Hid.
Qed.

(** ** The session registry *)


(** ** The skip bound *)

Section SkipFacts.
Context `{CP : CryptoPrimitives}.

(** When [decrypt] fails with [SkippedTooMany]: the guard is applied to the
    previous-chain length from 0, then to the header's counter from the
    counter the DH ratchet step left. *)
Lemma decrypt_SkippedTooMany seed message s :
  import_accepted X25519_usages (dhPublicKey (header message)) = true ->
  (fst (decrypt seed message s) = Err SkippedTooMany <->
   MAX_SKIP < h_pn (header message) \/
   Z.max 0 (h_pn (header message)) + MAX_SKIP < h_n (header message)).
Proof.
  intros Hacc. rewrite decrypt_accepted by exact Hacc. cbv zeta.
  destruct (ratchet_exit_fields seed (imported (dhPublicKey (header message))) (header message) s)
    as (Hnr & _). rewrite Hnr.
  destruct (Z.ltb_spec MAX_SKIP (h_pn (header message))) as [H1|H1]; cbn [fst].
  - split; [intros _; left; exact H1 | reflexivity].
  - destruct (Z.ltb_spec (Z.max 0 (h_pn (header message)) + MAX_SKIP) (h_n (header message)))
      as [H2|H2]; cbn [fst].
    + split; [intros _; right; exact H2 | reflexivity].
    + split; [|lia]. unfold opened. destruct (aesgcm_open _ _ _ _); discriminate.
Qed.

End SkipFacts.

(** C6, on the code.  [MAX_SKIP] is 1000, and [skipMessageKeys] fails, with
    [SkippedTooMany], exactly when [Nr + MAX_SKIP] is below the requested
    index; otherwise it returns with [Nr] no longer below the index.  But
    [decrypt] does not call it from the receive counter of the state: the DH
    ratchet step it runs on every message sets [Nr] to 0 and skips to the
    header's previous-chain length first.  So [decrypt] fails with
    [SkippedTooMany] exactly when that length is above [MAX_SKIP] or the
    header's index is more than [MAX_SKIP] above it.  In a state whose [Nr]
    is above the header's previous-chain length, a message with index
    [Nr + MAX_SKIP] is refused. *)
Theorem skip_boundary `{CP : CryptoPrimitives} :
  MAX_SKIP = 1000 /\
  (forall (s : RatchetState) (until : Z),
     fst (skipMessageKeys until s) = Err SkippedTooMany <-> nr s + MAX_SKIP < until) /\
  (forall (s : RatchetState) (until : Z),
     ~ nr s + MAX_SKIP < until ->
     fst (skipMessageKeys until s) = Ok tt /\ ~ nr (snd (skipMessageKeys until s)) < until) /\
  (forall (seed : ArrayBuffer) (message : EncryptedMessage) (s : RatchetState),
     import_accepted X25519_usages (dhPublicKey (header message)) = true ->
     (fst (decrypt seed message s) = Err SkippedTooMany <->
      MAX_SKIP < h_pn (header message) \/
      Z.max 0 (h_pn (header message)) + MAX_SKIP < h_n (header message))) /\
  (forall (seed : ArrayBuffer) (message : EncryptedMessage) (s : RatchetState),
     import_accepted X25519_usages (dhPublicKey (header message)) = true ->
     Z.max 0 (h_pn (header message)) < nr s ->
     h_n (header message) = nr s + MAX_SKIP ->
     fst (decrypt seed message s) = Err SkippedTooMany).
Proof.
  split; [reflexivity|]. split; [|split; [|split]].
  - intros s u. rewrite skipMessageKeys_eq.
    destruct (Z.ltb_spec (nr s + MAX_SKIP) u); cbn [fst]; split; intros; try lia; congruence.
  - intros s u Hok. rewrite skipMessageKeys_eq.
    destruct (Z.ltb_spec (nr s + MAX_SKIP) u); [contradiction|]. cbn [fst snd].
    split; [reflexivity|].
    destruct (skip_times_fields (Z.to_nat (u - nr s)) s) as [-> _]. lia.
  - intros seed message s. apply decrypt_SkippedTooMany.
  - intros seed message s Hacc Hnr Hn.
    apply (decrypt_SkippedTooMany seed message s Hacc). right. lia.
Qed.

(** ** The DH ratchet step *)

(** C4, on the code.  A state whose receive counter is 2 gets a message with
    a new ratchet key whose header says the previous chain had 2 messages:
    no key of the old receiving chain is unconsumed.  [performDHRatchet]
    resets [Nr] to 0 before it skips, so it derives two further keys of the
    old chain and caches them under the counters 0 and 1, and it returns with
    [Nr] at 2, not 0.  The chains, the key pair and [Pn] are as the claim
    says. *)
Theorem ratchet_skip_restarts_from_zero `{CP : CryptoPrimitives}
    (seed : ArrayBuffer) (remotePublicKey : CryptoKey) (s : RatchetState) :
  let h := {| dhPublicKey := raw remotePublicKey; h_pn := 2; h_n := 0 |} in
  let old := set_nr 2 s in
  let recv := deriveRootChainKeys (rootKey s)
                (deriveSharedSecret (privateKey (dhSend s)) remotePublicKey) in
  let send := deriveRootChainKeys (fst recv)
                (deriveSharedSecret (privateKey (generateKeyPair seed)) remotePublicKey) in
  exists s',
    performDHRatchet seed remotePublicKey h old = (Ok tt, s') /\
    skippedKeys s' =
      <["1" := messageKeyOf (nextChainKeyOf (chainKeyRecv s))]>
        (<["0" := messageKeyOf (chainKeyRecv s)]> (skippedKeys s)) /\
    nr s' = 2 /\
    ns s' = 0 /\ pn s' = ns s /\
    chainKeyRecv s' = snd recv /\
    dhSend s' = generateKeyPair seed /\
    rootKey s' = fst send /\ chainKeySend s' = snd send.
Proof.
  intros h old recv send. rewrite performDHRatchet_eq.
  cbn [h_pn h]. destruct (Z.ltb_spec MAX_SKIP 2) as [Hlt|_]; [unfold MAX_SKIP in Hlt; lia|].
  eexists. split; [reflexivity|]. repeat split.
Qed.

(** ** Counters *)

(** C7, on the code.  [encrypt] adds exactly one to [Ns] and leaves [Nr]
    and [Pn]; [skipMessageKeys] never lowers [Nr] and moves the receiving
    chain one step per unit of [Nr].  [performDHRatchet] is the one place
    where the counters are set to 0, but it does not return with [Nr] at 0:
    its own skip counts on from 0, and [Nr] is the header's previous-chain
    length when it returns.  And [decrypt] runs it on every message whose
    header key the platform accepts, also when the state already holds that
    key: the key imported from the header cannot be exported, so
    [areKeysEqual] answers [false].  A message of the current chain therefore
    sets [Ns] back to 0 and [Pn] to the old [Ns]. *)
Theorem decrypt_resets_counters_within_chain `{CP : CryptoPrimitives} (s : RatchetState) :
  (forall nonce plaintext,
     let s' := snd (encrypt nonce plaintext s) in
     ns s' = ns s + 1 /\ nr s' = nr s /\ pn s' = pn s) /\
  (forall until,
     let s' := snd (skipMessageKeys until s) in
     ns s' = ns s /\ nr s <= nr s' /\
     chainKeyRecv s' = chain_advance (Z.to_nat (nr s' - nr s)) (chainKeyRecv s)) /\
  (forall seed remotePublicKey h,
     h_pn h <= MAX_SKIP ->
     let s' := snd (performDHRatchet seed remotePublicKey h s) in
     ns s' = 0 /\ pn s' = ns s /\ nr s' = Z.max 0 (h_pn h)) /\
  (forall seed message,
     import_accepted X25519_usages (dhPublicKey (header message)) = true ->
     needsDHRatchet s (imported (dhPublicKey (header message))) = true /\
     (fst (decrypt seed message s) <> Err SkippedTooMany ->
      let s' := snd (decrypt seed message s) in
      ns s' = 0 /\ pn s' = ns s /\
      nr s' = Z.max (Z.max 0 (h_pn (header message))) (h_n (header message)) + 1)).
Proof.
  split; [|split; [|split]].
  - intros nonce plaintext. rewrite encrypt_eq. repeat split.
  - intros u. rewrite skipMessageKeys_eq.
    destruct (Z.ltb_spec (nr s + MAX_SKIP) u) as [H|H]; cbn [snd].
    + rewrite Z.sub_diag. repeat split. lia.
    + destruct (skip_times_fields (Z.to_nat (u - nr s)) s) as (H1 & H2 & H3 & _).
      rewrite H1, H2, H3.
      replace (Z.to_nat (nr s + Z.of_nat (Z.to_nat (u - nr s)) - nr s))
        with (Z.to_nat (u - nr s)) by lia.
      repeat split. lia.
  - intros seed k h Hpn. rewrite performDHRatchet_eq.
    destruct (Z.ltb_spec MAX_SKIP (h_pn h)) as [H|_]; [lia|]. cbn [snd].
    destruct (ratchet_exit_fields seed k h s) as (H1 & H2 & H3 & _). auto.
  - intros seed message Hacc. split; [apply needsDHRatchet_imported|].
    intros Hno s'. subst s'.
    pose proof (decrypt_SkippedTooMany seed message s Hacc) as Hiff.
    rewrite decrypt_accepted in Hno |- * by exact Hacc. cbv zeta in Hno |- *.
    destruct (ratchet_exit_fields seed (imported (dhPublicKey (header message))) (header message) s)
      as (Hnr & _). rewrite Hnr in Hno |- *.
    destruct (Z.ltb_spec MAX_SKIP (h_pn (header message))) as [H1|H1];
      [exfalso; apply Hno; reflexivity|].
    destruct (Z.ltb_spec (Z.max 0 (h_pn (header message)) + MAX_SKIP) (h_n (header message)))
      as [H2|H2]; [exfalso; apply Hno; reflexivity|].
    cbn [snd].
    destruct (recv_advance_fields (at_message seed message s)) as (G1 & _ & G3 & G4 & _).
    destruct (at_message_nr seed message s) as (_ & _ & _ & A4 & A5 & _).
    rewrite G1, G3, G4, A4, A5, at_message_nr_max. auto.
Qed.

(** ** Runs of the reference instances *)

Section ScenarioFacts.
Local Existing Instance refPrimitives.

Lemma sc_bobPair_wf : wf_pair sc_bobPair.
Proof. reflexivity. Qed.

Lemma sc_alice0_initialized :
  initializeAlice (le_split 32 777) sc_sharedKey (publicPoint sc_bobPair) = Ok sc_alice0.
Proof. by_evaluation. Qed.



(** C2, on the code.  Alice sends "hello" and "again"; Bob decrypts them in
    the order they were sent.  The first is decrypted.  Bob then holds
    Alice's ratchet key, his receiving chain key is the chain key Alice
    sealed the second message from and his counter is the message's index;
    the message opens under Alice's key.  [decrypt] nevertheless runs a DH
    ratchet step, replaces the receiving chain and Bob's key pair, and fails
    with [AuthenticationFailure]. *)
Theorem second_message_breaks_roundtrip :
  initializeAlice (le_split 32 777) sc_sharedKey (publicPoint sc_bobPair) = Ok sc_alice0 /\
  sc_bob0 = initializeBob sc_sharedKey sc_bobPair /\
  outcomes sc_in_order (sc_alice0, sc_bob0) = [Ok (js "hello"); Err AuthenticationFailure] /\
  fst (encrypt sc_nonce2 (js "again") sc_alice1) = Ok sc_second /\
  opened (messageKeyOf (chainKeySend sc_alice1)) sc_second = Ok (js "again") /\
  raw <$> dhRecv sc_bob1 = Some (dhPublicKey (header sc_second)) /\
  chainKeyRecv sc_bob1 = chainKeySend sc_alice1 /\
  nr sc_bob1 = h_n (header sc_second) /\
  fst (decrypt sc_seed2 sc_second sc_bob1) = Err AuthenticationFailure /\
  dhSend (snd (decrypt sc_seed2 sc_second sc_bob1)) = generateKeyPair sc_seed2 /\
  chainKeyRecv (snd (decrypt sc_seed2 sc_second sc_bob1)) <> nextChainKeyOf (chainKeySend sc_alice1).
Proof.
  split; [by_evaluation|]. split; [reflexivity|]. split; [by_evaluation|].
  split; [rewrite encrypt_eq; reflexivity|]. split; [by_evaluation|].
  split; [by_evaluation|]. split; [by_evaluation|]. split; [by_evaluation|].
  split; [by_evaluation|]. split; [by_evaluation|].
  apply bytes_differ. by_evaluation.
Qed.

(** C3 on the instance that follows the rule on key usages, at Bob's
    service and bundle. *)
Lemma x3dh_imports_rejected_witness :
  let r := @acceptConversation strictPrimitives (fun _ => publicPoint sc_identityA) 2000
             "conv-2" "alice" (publicPoint sc_ephemeralA) "signed-1" (Some "onetime-0")
             sc_serviceB in
  @public_key_usages_rule strictPrimitives /\
  preKeys sc_serviceB !! "signed-1" = Some sc_bobPair /\
  @performX3DH strictPrimitives sc_identityA sc_ephemeralA sc_bundleB = Err CryptoError /\
  fst r = Err CryptoError /\
  sessions (snd r) = ∅ /\
  oneTimePreKeys sc_serviceB !! "onetime-0" = Some sc_oneTimeB /\
  oneTimePreKeys (snd r) !! "onetime-0" = None.
Proof.
  intros r.
  assert (Hspk : preKeys sc_serviceB !! "signed-1" = Some sc_bobPair)
    by apply lookup_singleton_eq.
  destruct (@x3dh_imports_rejected strictPrimitives strict_usages_rule
              sc_identityA sc_ephemeralA sc_bundleB sc_serviceB
              (fun _ => publicPoint sc_identityA) 2000 "conv-2" "alice"
              (publicPoint sc_ephemeralA) "signed-1" (Some "onetime-0"%string) sc_bobPair Hspk)
    as (H1 & H2 & H3 & H4 & _).
  split; [exact strict_usages_rule|]. split; [exact Hspk|]. split; [exact H1|].
  split; [exact H2|]. split; [exact H3|]. split; [apply lookup_singleton_eq|].
  fold r in H4. rewrite H4. apply lookup_delete_eq.
Defined.

(** The same handshake on the instance that accepts the keys. *)
Lemma x3dh_secrets_agree_example :
  exists secret k',
    performX3DH sc_identityA sc_ephemeralA sc_bundleB = Ok secret /\
    acceptConversation (fun _ => publicPoint sc_identityA) 2000 "conv-2" "alice"
      (publicPoint sc_ephemeralA) "signed-1" (Some "onetime-0") sc_serviceB
      = (Ok "conv-2"%string, k') /\
    (rootKey ∘ ratchet) <$> (sessions k' !! "conv-2") = Some secret.
Proof.
  destruct (x3dh_secrets_agree_where_imported ref_dh_agreement
              sc_identityA sc_ephemeralA sc_identityB sc_bobPair (Some sc_oneTimeB)
              sc_serviceB (fun _ => publicPoint sc_identityA) 2000 "conv-2" "alice" "signed-1"
              (Some "onetime-0"%string) [])
    as (Hinit & k' & Hacc & Hsession); try reflexivity.
  eexists. exists k'. split; [exact Hinit|]. split; [exact Hacc|].
  rewrite Hsession. reflexivity.
Defined.


(** C9 at Alice's first message, its previous-chain length replaced by 7. *)
Lemma header_not_bound_to_ciphertext_witness :
  aead_correct /\ dh_agreement /\
  exists message,
    fst (encrypt sc_nonce (js "hello") sc_alice0) = Ok message /\
    fst (decrypt sc_seed
           (with_header {| dhPublicKey := dhPublicKey (header message);
                           h_pn := 7;
                           h_n := h_n (header message) |} message) sc_bob0) = Ok (js "hello").
Proof.
  split; [exact ref_aead_correct|]. split; [exact ref_dh_agreement|].
  destruct (proj2 (header_not_bound_to_ciphertext ref_aead_correct ref_dh_agreement)
              sc_sharedKey sc_bobPair (le_split 32 777) sc_nonce sc_seed (js "hello") 7 sc_alice0)
    as (message & Henc & Hdec).
  - reflexivity.
  - unfold MAX_SKIP. lia.
  - exact sc_alice0_initialized.
  - exists message. split; [exact Henc|]. refine (eq_trans Hdec _). by_evaluation.
Defined.


(** C6 at a state of Bob whose receive counter is 5: the message of the
    same chain with index [5 + MAX_SKIP] is refused. *)
Lemma skip_boundary_witness :
  fst (decrypt sc_seed sc_fifth sc_bob0) = Ok (js "fifth") /\
  nr sc_bob5 = 5 /\
  raw <$> dhRecv sc_bob5 = Some (dhPublicKey (header sc_at_limit)) /\
  h_n (header sc_at_limit) = nr sc_bob5 + MAX_SKIP /\
  fst (decrypt sc_seed2 sc_at_limit sc_bob5) = Err SkippedTooMany.
Proof.
  assert (Hnr : nr sc_bob5 = 5) by by_evaluation.
  split; [by_evaluation|]. split; [exact Hnr|]. split; [by_evaluation|].
  split; [rewrite Hnr; reflexivity|].
  destruct (@skip_boundary refPrimitives) as (_ & _ & _ & _ & Hlimit).
  apply (Hlimit sc_seed2 sc_at_limit sc_bob5).
  - reflexivity.
  - rewrite Hnr. cbn. lia.
  - rewrite Hnr. reflexivity.
Defined.

(** C7 at Alice's session: she has decrypted Bob's first answer and sent
    two messages; Bob's second answer carries the ratchet key she already
    holds, and her [Ns] goes from 2 to 0. *)
Lemma decrypt_resets_counters_within_chain_witness :
  fst (decrypt sc_seed2 sc_reply1 sc_alice1) = Ok (js "r1") /\
  ns sc_alice3 = 2 /\
  raw <$> dhRecv sc_alice3 = Some (dhPublicKey (header sc_reply2)) /\
  fst (decrypt sc_seed sc_reply2 sc_alice3) = Err AuthenticationFailure /\
  ns (snd (decrypt sc_seed sc_reply2 sc_alice3)) = 0 /\
  pn (snd (decrypt sc_seed sc_reply2 sc_alice3)) = 2.
Proof.
  assert (Hns : ns sc_alice3 = 2) by by_evaluation.
  assert (Hfail : fst (decrypt sc_seed sc_reply2 sc_alice3) = Err AuthenticationFailure)
    by by_evaluation.
  split; [by_evaluation|]. split; [exact Hns|]. split; [by_evaluation|].
  split; [exact Hfail|].
  destruct (decrypt_resets_counters_within_chain sc_alice3) as (_ & _ & _ & Hdec).
  destruct (Hdec sc_seed sc_reply2) as [_ Hreset]; [by_evaluation|].
  destruct Hreset as (H1 & H2 & _); [rewrite Hfail; discriminate|].
  split; [exact H1|]. rewrite H2. exact Hns.
Defined.

(** Handshake through the two services, then one message each way. *)
Example handshake_and_exchange :
  sc_handshake_and_exchange = (Ok (js "hello"), Ok (js "hi")).
Proof. by_evaluation. Qed.

(** C5, on the code.  Bob receives Alice's second message before her
    first.  [decrypt] skips counter 0 and caches its message key under "0";
    that key opens the first message.  When the first message arrives,
    [decrypt] does not look the key up: it derives a key of its own, fails
    with [AuthenticationFailure], and the cache entry is still there. *)
Theorem late_message_not_resolved_from_cache :
  fst (decrypt sc_seed sc_second sc_bob0) = Ok (js "again") /\
  skippedKeys sc_bob_after_second !! "0" = Some (messageKeyOf (chainKeySend sc_alice0)) /\
  opened (messageKeyOf (chainKeySend sc_alice0)) sc_hello = Ok (js "hello") /\
  fst (decrypt sc_seed2 sc_hello sc_bob_after_second) = Err AuthenticationFailure /\
  skippedKeys (snd (decrypt sc_seed2 sc_hello sc_bob_after_second)) !! "0"
    = Some (messageKeyOf (chainKeySend sc_alice0)).
Proof.
  split; [by_evaluation|]. split; [by_evaluation|]. split; [by_evaluation|].
  split; by_evaluation.
Qed.

(** C4, on the reference instance.  Bob has decrypted Alice's second
    message: his receive counter is 2 and the key of her first message is
    cached under "0".  A new chain arrives whose header says the previous
    chain had 2 messages.  [performDHRatchet] counts again from 0: it derives
    two further keys of the old chain, overwrites the entry under "0" and
    returns with [Nr] at 2. *)
Lemma consumed_chain_is_skipped_again :
  let k := imported (publicOf (le_split 32 888)) in
  let r := performDHRatchet sc_seed2 k {| dhPublicKey := raw k; h_pn := 2; h_n := 0 |}
             sc_bob_after_second in
  nr sc_bob_after_second = 2 /\
  skippedKeys sc_bob_after_second !! "0" = Some (messageKeyOf (chainKeySend sc_alice0)) /\
  fst r = Ok tt /\ nr (snd r) = 2 /\
  skippedKeys (snd r) !! "0" = Some (messageKeyOf (chainKeyRecv sc_bob_after_second)) /\
  messageKeyOf (chainKeyRecv sc_bob_after_second) <> messageKeyOf (chainKeySend sc_alice0).
Proof.
  intros k r.
  split; [by_evaluation|]. split; [by_evaluation|]. split; [by_evaluation|].
  split; [by_evaluation|]. split; [by_evaluation|].
  apply bytes_differ. by_evaluation.
Qed.

End ScenarioFacts.

(** ** More of the ratchet *)


Section MoreRatchetFacts.
Context `{CP : CryptoPrimitives}.

(** The cache after [k] turns of the skip loop. *)
Lemma skip_times_cache k : forall s,
  (forall i, nr s <= i < nr s + Z.of_nat k ->
     skippedKeys (skip_times k s) !! pretty i =
       Some (messageKeyOf (chain_advance (Z.to_nat (i - nr s)) (chainKeyRecv s)))) /\
  (forall key : string, (forall i, nr s <= i < nr s + Z.of_nat k -> key <> pretty i) ->
     skippedKeys (skip_times k s) !! key = skippedKeys s !! key).
Proof.
  induction k as [|k IH]; intros s.
  - split; [intros i Hi; lia | reflexivity].
  - cbn [skip_times]. destruct (IH (skip_one s)) as [IHin IHout].
    destruct (skip_one_fields s) as (H1 & H2 & H3 & _).
    rewrite H1, H2 in IHin. rewrite H1 in IHout. split.
    + intros i Hi. destruct (Z.eq_dec i (nr s)) as [->|Hne].
      * rewrite IHout by (intros j Hj Heq; apply (inj pretty) in Heq; lia).
        rewrite H3, lookup_insert_eq, Z.sub_diag. reflexivity.
      * rewrite IHin by lia.
        replace (Z.to_nat (i - nr s)) with (S (Z.to_nat (i - (nr s + 1)))) by lia.
        reflexivity.
    + intros key Hkey. rewrite IHout by (intros j Hj; apply Hkey; lia).
      rewrite H3, lookup_insert_ne; [reflexivity|].
      intros Heq. apply (Hkey (nr s)); [lia | symmetry; exact Heq].
Qed.



End MoreRatchetFacts.

(** X2.  A successful [skipMessageKeys(until)] leaves [Nr] at [until] and the
    receiving chain [until - Nr] steps further, and for every counter it
    passed it caches, under the decimal string of the counter, the message
    key of that position of the chain.  Entries under other keys are
    untouched, and when [until] is not ahead of [Nr] nothing changes. *)
Theorem skipMessageKeys_caches_each_counter `{CP : CryptoPrimitives}
    (s : RatchetState) (until : Z) :
  (until <= nr s -> skipMessageKeys until s = (Ok tt, s)) /\
  (nr s <= until <= nr s + MAX_SKIP ->
   let s' := snd (skipMessageKeys until s) in
   fst (skipMessageKeys until s) = Ok tt /\
   nr s' = until /\
   chainKeyRecv s' = chain_advance (Z.to_nat (until - nr s)) (chainKeyRecv s) /\
   (forall i, nr s <= i < until ->
      skippedKeys s' !! pretty i =
        Some (messageKeyOf (chain_advance (Z.to_nat (i - nr s)) (chainKeyRecv s)))) /\
   (forall key : string, (forall i, nr s <= i < until -> key <> pretty i) ->
      skippedKeys s' !! key = skippedKeys s !! key)).
Proof.
  split.
  - intros Hle. rewrite skipMessageKeys_eq.
    destruct (Z.ltb_spec (nr s + MAX_SKIP) until) as [Hlt|_];
      [unfold MAX_SKIP in Hlt; lia|].
    rewrite skip_times_none by lia. reflexivity.
  - intros [Hlo Hhi] s'. subst s'. rewrite skipMessageKeys_eq.
    destruct (Z.ltb_spec (nr s + MAX_SKIP) until) as [Hlt|_]; [lia|]. cbn [fst snd].
    set (k := Z.to_nat (until - nr s)).
    destruct (skip_times_fields k s) as (H1 & H2 & _).
    destruct (skip_times_cache k s) as [Hin Hout].
    split; [reflexivity|]. split; [rewrite H1; lia|]. split; [exact H2|]. split.
    + intros i Hi. apply Hin. lia.
    + intros key Hkey. apply Hout. intros i Hi. apply Hkey. lia.
Qed.



Section SendFacts.
Context `{CP : CryptoPrimitives}.

Lemma after_sends_send sends : forall s,
  chainKeySend (after_sends sends s) = chain_advance (length sends) (chainKeySend s) /\
  pn (after_sends sends s) = pn s /\
  skippedKeys (after_sends sends s) = skippedKeys s.
Proof.
  induction sends as [|[nonce p] sends IH]; intros s.
  - cbn. repeat split.
  - unfold after_sends in *. cbn [fold_left fst snd length chain_advance].
    destruct (IH (snd (encrypt nonce p s))) as (H2 & H3 & H4).
    rewrite H2, H3, H4, encrypt_eq. cbn. repeat split.
Qed.

End SendFacts.

(** X5.  Consecutive calls of [encrypt] walk the sending chain: the message
    sent after [k] earlier ones carries counter [Ns + k], the same [Pn] and
    ratchet key, and is sealed under the message key [k] steps down the
    sending chain.  Sending changes nothing of the receiving side, the root
    key, the key pairs or the cache. *)
Theorem encrypt_walks_sending_chain `{CP : CryptoPrimitives}
    (sends : list (ArrayBuffer * JSString)) (s : RatchetState)
    (nonce : ArrayBuffer) (plaintext : JSString) :
  let s' := after_sends sends s in
  fst (encrypt nonce plaintext s') =
    Ok {| header := {| dhPublicKey := publicPoint (dhSend s);
                       h_pn := pn s;
                       h_n := ns s + Z.of_nat (length sends) |};
          ciphertext := aesgcm_seal (messageKeyOf (chain_advance (length sends) (chainKeySend s)))
                          nonce None (TextEncoder_encode plaintext);
          iv := nonce |} /\
  chainKeyRecv s' = chainKeyRecv s /\ nr s' = nr s /\ dhRecv s' = dhRecv s /\
  rootKey s' = rootKey s /\ dhSend s' = dhSend s /\ skippedKeys s' = skippedKeys s.
Proof.
  intros s'. subst s'.
  destruct (after_sends_send sends s) as (H2 & H3 & H4).
  destruct (after_sends_fields sends s) as (G1 & G2 & G3 & G4 & G5 & G6).
  split; [|repeat split; assumption].
  rewrite encrypt_eq. cbn [fst]. unfold message_of. rewrite G6, H2, H3, G4. reflexivity.
Qed.


(** ** Conversations in which the parties take turns *)

Section TurnFacts.
Context `{CP : CryptoPrimitives}.
Hypothesis Haead : aead_correct.
Hypothesis Hdh : dh_agreement.
Hypothesis Himport : imports_generated_keys.

(** One turn: the message of the party whose turn it is is decrypted, and
    the turn passes to the receiver. *)
Lemma turn_passes x y nonce plaintext seed :
  turn_of x y ->
  decrypt seed (message_of nonce plaintext x) y =
    (Ok (TextDecoder_decode (TextEncoder_encode plaintext)),
     snd (decrypt seed (message_of nonce plaintext x) y)) /\
  turn_of (snd (decrypt seed (message_of nonce plaintext x) y)) (send_advance x).
Proof.
  intros (Hwf & Hns & Hpn & Hnsy & Hkdf).
  assert (Hacc : import_accepted X25519_usages (publicPoint (dhSend x)) = true)
    by (rewrite Hwf; apply Himport).
  destruct (decrypt_first_key seed (message_of nonce plaintext x) y) as (_ & Hchain & _ & Hdec).
  { exact Hacc. }
  { cbn [header message_of h_pn]. exact Hpn. }
  { cbn [header message_of h_pn h_n]. lia. }
  cbn [header message_of dhPublicKey] in Hchain, Hdec.
  rewrite Hkdf in Hchain. cbn [snd] in Hchain.
  rewrite Hdec, Hchain. cbn [fst snd].
  split.
  - f_equal. apply (opened_sealed Haead).
  - set (h := {| dhPublicKey := publicPoint (dhSend x); h_pn := pn x; h_n := ns x |}).
    set (k := imported (publicPoint (dhSend x))).
    destruct (recv_advance_fields (ratchet_exit seed k h y))
      as (_ & _ & G3 & G4 & G5 & G6 & G7 & _).
    destruct (ratchet_exit_fields seed k h y) as (_ & E2 & E3 & E4 & _).
    destruct (send_advance_fields x) as (S1 & _ & _ & _ & S5 & _ & S7 & _).
    unfold turn_of. rewrite G3, G4, G5, G6, G7, E2, E3, E4, S1, S5, S7, Hns.
    split; [reflexivity|]. split; [reflexivity|]. split; [exact Hnsy|].
    split; [unfold MAX_SKIP; lia|].
    unfold ratchet_exit. cbn [rootKey chainKeySend].
    unfold deriveSharedSecret. cbn [raw privateKey k imported generateKeyPair privateScalar publicPoint].
    rewrite Hkdf. cbn [fst]. unfold wf_pair in Hwf. rewrite Hwf.
    rewrite (Hdh (privateScalar (dhSend x)) seed). apply surjective_pairing.
Qed.

(** After [initializeAlice] and [initializeBob] on one secret it is the
    initiator's turn. *)
Lemma initial_turn sharedKey keyPair aliceSeed alice :
  wf_pair keyPair ->
  initializeAlice aliceSeed sharedKey (publicPoint keyPair) = Ok alice ->
  turn_of alice (initializeBob sharedKey keyPair).
Proof.
  intros Hwf Hinit. apply initializeAlice_Ok in Hinit. destruct Hinit as [_ ->].
  unfold turn_of. cbn [dhSend ns pn rootKey chainKeySend initializeBob generateKeyPair
                       privateScalar publicPoint].
  split; [reflexivity|]. split; [reflexivity|]. split; [unfold MAX_SKIP; lia|].
  split; [unfold MAX_SKIP; lia|].
  unfold wf_pair in Hwf. rewrite Hwf, <- Hdh.
  destruct (deriveRootChainKeys sharedKey (x25519 aliceSeed (publicOf (privateScalar keyPair)))).
  reflexivity.
Qed.

Lemma alternating_outcomes ms : forall first a b,
  alternating first ms ->
  match first with Alice => turn_of a b | Bob => turn_of b a end ->
  outcomes ms (a, b) = (fun m => Ok (TextDecoder_decode (TextEncoder_encode (text m)))) <$> ms.
Proof.
  induction ms as [|m ms IH]; intros first a b Halt Hturn; [reflexivity|].
  destruct Halt as [Hs Halt]. cbn [outcomes fmap list_fmap]. unfold deliver. rewrite Hs.
  destruct first.
  - rewrite encrypt_eq.
    destruct (turn_passes a b (send_nonce m) (text m) (recv_seed m) Hturn) as [Hdec Hnext].
    rewrite Hdec. cbn [fst snd]. f_equal.
    apply (IH Bob); [exact Halt | exact Hnext].
  - rewrite encrypt_eq.
    destruct (turn_passes b a (send_nonce m) (text m) (recv_seed m) Hturn) as [Hdec Hnext].
    rewrite Hdec. cbn [fst snd]. f_equal.
    apply (IH Alice); [exact Halt | exact Hnext].
Qed.

End TurnFacts.

(** X7.  A conversation in which the two parties take turns, one message
    each, the initiator first, round-trips however long it is: every message
    is decrypted to the text [TextDecoder] reads from the bytes [TextEncoder]
    wrote.  (Two messages in a row from one party are another matter: the
    second is not decrypted.) *)
Theorem turn_taking_round_trips `{CP : CryptoPrimitives}
    (Haead : aead_correct) (Hdh : dh_agreement) (Himport : imports_generated_keys)
    (sharedKey : ArrayBuffer) (keyPair : CryptoKeyPair) (aliceSeed : ArrayBuffer)
    (alice : RatchetState) (ms : list Send) :
  wf_pair keyPair ->
  initializeAlice aliceSeed sharedKey (publicPoint keyPair) = Ok alice ->
  alternating Alice ms ->
  outcomes ms (alice, initializeBob sharedKey keyPair) =
    (fun m => Ok (TextDecoder_decode (TextEncoder_encode (text m)))) <$> ms.
Proof.
  intros Hwf Hinit Halt.
  apply (alternating_outcomes Haead Hdh Himport ms Alice); [exact Halt|].
  apply (initial_turn Hdh sharedKey keyPair aliceSeed alice Hwf Hinit).
Qed.

(** ** Text *)

Section TextFacts.

Lemma ascii_not_surrogate c :
  0 <= c < 128 -> is_lead_surrogate c = false /\ is_trail_surrogate c = false.
Proof.
  intros Hc. unfold is_lead_surrogate, is_trail_surrogate.
  destruct (Z.leb_spec 0xD800 c); [lia|]. destruct (Z.leb_spec 0xDC00 c); [lia|].
  split; reflexivity.
Qed.

Lemma scalar_values_ascii s :
  Forall (fun c => 0 <= c < 128) s -> scalar_values s = s.
Proof.
  induction 1 as [|c s Hc _ IH]; [reflexivity|].
  cbn [scalar_values]. destruct (ascii_not_surrogate c Hc) as [-> ->]. rewrite IH. reflexivity.
Qed.

Lemma encode_ascii s :
  Forall (fun c => 0 <= c < 128) s -> TextEncoder_encode s = byte.of_Z <$> s.
Proof.
  intros Hs. unfold TextEncoder_encode. rewrite (scalar_values_ascii s Hs).
  induction Hs as [|c s Hc _ IH]; [reflexivity|].
  cbn [fmap list_fmap concat]. rewrite IH. unfold utf8_bytes.
  destruct (Z.ltb_spec c 0x80); [reflexivity|lia].
Qed.

Lemma unsigned_of_ascii c : 0 <= c < 128 -> byte.unsigned (byte.of_Z c) = c.
Proof.
  intros Hc. rewrite byte.unsigned_of_Z. unfold byte.wrap. apply Z.mod_small. lia.
Qed.

Lemma utf8_decode_ascii s :
  Forall (fun c => 0 <= c < 128) s -> utf8_decode None (byte.of_Z <$> s) = s.
Proof.
  induction 1 as [|c s Hc _ IH]; [reflexivity|].
  cbn [fmap list_fmap utf8_decode]. rewrite (unsigned_of_ascii c Hc). unfold utf8_start.
  destruct (Z.leb_spec c 0x7F); [|lia]. rewrite IH. reflexivity.
Qed.

Lemma strip_bom_ascii s :
  Forall (fun c => 0 <= c < 128) s -> strip_bom (byte.of_Z <$> s) = byte.of_Z <$> s.
Proof.
  intros Hs. destruct Hs as [|c s Hc Hs]; [reflexivity|].
  cbn [fmap list_fmap]. pose proof (unsigned_of_ascii c Hc) as Hu.
  unfold strip_bom. destruct (byte.of_Z c) eqn:E; try reflexivity.
  exfalso. rewrite <- Hu in Hc. cbn in Hc. lia.
Qed.

Lemma utf16_units_ascii s :
  Forall (fun c => 0 <= c < 128) s -> concat (utf16_units <$> s) = s.
Proof.
  induction 1 as [|c s Hc _ IH]; [reflexivity|].
  cbn [fmap list_fmap concat]. rewrite IH. unfold utf16_units.
  destruct (Z.ltb_spec c 0x10000); [reflexivity|lia].
Qed.

End TextFacts.

(** X8.  [TextDecoder] gives back the string [TextEncoder] was given when
    all its characters are ASCII, but not for every string: put in front of
    such a string, a byte order mark is dropped, and a surrogate without its
    partner comes back as U+FFFD.  So [decrypt] after [encrypt] cannot return
    such a plaintext, whatever the keys. *)
Theorem text_round_trip_only_for_some_strings (s : JSString) :
  Forall (fun c => 0 <= c < 128) s ->
  TextDecoder_decode (TextEncoder_encode s) = s /\
  TextDecoder_decode (TextEncoder_encode (0xFEFF :: s)) = s /\
  TextDecoder_decode (TextEncoder_encode (0xD800 :: s)) = 0xFFFD :: s.
Proof.
  intros Hs.
  assert (Hplain : concat (utf16_units <$> utf8_decode None (byte.of_Z <$> s)) = s).
  { rewrite (utf8_decode_ascii s Hs). apply (utf16_units_ascii s Hs). }
  split; [|split].
  - unfold TextDecoder_decode.
    rewrite (encode_ascii s Hs), (strip_bom_ascii s Hs). exact Hplain.
  - assert (Henc : TextEncoder_encode (0xFEFF :: s) = xef :: xbb :: xbf :: TextEncoder_encode s)
      by reflexivity.
    unfold TextDecoder_decode. rewrite Henc. cbn [strip_bom].
    rewrite (encode_ascii s Hs). exact Hplain.
  - assert (Henc : TextEncoder_encode (0xD800 :: s) = xef :: xbf :: xbd :: TextEncoder_encode s).
    { unfold TextEncoder_encode. cbn [scalar_values].
      change (is_lead_surrogate 0xD800) with true. cbv iota.
      destruct Hs as [|d s Hd Hs]; [reflexivity|].
      destruct (ascii_not_surrogate d Hd) as [_ ->]. reflexivity. }
    unfold TextDecoder_decode. rewrite Henc. cbn [strip_bom]. rewrite (encode_ascii s Hs).
    assert (Hdec : forall bytes, utf8_decode None (xef :: xbf :: xbd :: bytes) =
                                 0xFFFD :: utf8_decode None bytes) by reflexivity.
    rewrite Hdec. cbn [fmap list_fmap concat]. rewrite Hplain. reflexivity.
Qed.

(** ** More of the service *)

Section ServiceFacts.
Context `{CP : CryptoPrimitives}.

(** What the loop of [cleanupOldSessions] leaves of a registry [m], when it
    deletes from [b]. *)
Lemma cleanup_fold_lookup (cutoff : Z) (m b : gmap string ConversationSession) (id : string) :
  map_fold (fun conversationId session (remaining : gmap string ConversationSession) =>
              if lastUsed session <? cutoff then delete conversationId remaining else remaining)
           b m !! id =
  match m !! id with
  | Some session => if lastUsed session <? cutoff then None else b !! id
  | None => b !! id
  end.
Proof.
  revert id. apply (map_fold_weak_ind (fun r m' => forall id,
    r !! id = match m' !! id with
              | Some session => if lastUsed session <? cutoff then None else b !! id
              | None => b !! id
              end)).
  - intros id. rewrite lookup_empty. reflexivity.
  - intros i x m' r Hi IH id. destruct (decide (id = i)) as [->|Hne].
    + rewrite lookup_insert_eq. specialize (IH i). rewrite Hi in IH.
      destruct (lastUsed x <? cutoff); [apply lookup_delete_eq | exact IH].
    + rewrite lookup_insert_ne by congruence.
      destruct (lastUsed x <? cutoff); [rewrite lookup_delete_ne by congruence|]; apply IH.
Qed.

Lemma cleanupOldSessions_lookup now k id :
  sessions (snd (cleanupOldSessions now k)) !! id =
  match sessions k !! id with
  | Some session => if lastUsed session <? now - SEVEN_DAYS then None else Some session
  | None => None
  end.
Proof.
  unfold cleanupOldSessions, modify. cbn [snd sessions set_sessions].
  rewrite cleanup_fold_lookup. destruct (sessions k !! id) as [session|] eqn:Hs; reflexivity.
Qed.

Lemma decryptMessage_found now seed id message k session :
  sessions k !! id = Some session ->
  decryptMessage now seed id message k =
  (fst (decrypt seed message (ratchet session)),
   set_sessions (<[id := {| conversationId := conversationId session;
                            ratchet := snd (decrypt seed message (ratchet session));
                            createdAt := createdAt session;
                            lastUsed := now |}]> (sessions k)) k).
Proof.
  intros Hs. unfold decryptMessage, bind, get. rewrite Hs. unfold onRatchet.
  cbn [ratchet set_lastUsed]. destruct (decrypt seed message (ratchet session)). reflexivity.
Qed.

Lemma encryptMessage_not_found now nonce id plaintext k :
  sessions k !! id = None ->
  encryptMessage now nonce id plaintext k = (Err SessionNotFound, k).
Proof. intros Hs. unfold encryptMessage, bind, get. rewrite Hs. reflexivity. Qed.

(** [acceptConversation] where the keys are found and imported. *)
Lemma acceptConversation_accepted fetchIdentityKey now newId senderUserId ephemeralPublicKey
    signedPreKeyId oneTimePreKeyId k signedPreKeyPair identity :
  preKeys k !! signedPreKeyId = Some signedPreKeyPair ->
  identityKeyPair k = Some identity ->
  import_accepted X25519_usages ephemeralPublicKey = true ->
  import_accepted X25519_usages (fetchIdentityKey senderUserId) = true ->
  acceptConversation fetchIdentityKey now newId senderUserId ephemeralPublicKey
    signedPreKeyId oneTimePreKeyId k =
  (Ok newId,
   set_sessions
     (<[newId := {| conversationId := newId;
                    ratchet := initializeBob
                      (responder_secret identity signedPreKeyPair
                         (found_oneTimePreKey k oneTimePreKeyId)
                         (fetchIdentityKey senderUserId) ephemeralPublicKey)
                      signedPreKeyPair;
                    createdAt := now; lastUsed := now |}]> (sessions k))
     (without_oneTimePreKey k oneTimePreKeyId)).
Proof.
  intros Hspk Hid Hek Hik. unfold acceptConversation, bind, get. rewrite Hspk.
  unfold found_oneTimePreKey, without_oneTimePreKey, responder_secret, deriveSharedSecret.
  destruct (truthy oneTimePreKeyId); unfold modify, ret, lift;
    rewrite !importKey_accepted by assumption;
    unfold identityPrivateKey, bind, get, ret;
    cbn [identityKeyPair set_oneTimePreKeys]; rewrite Hid;
    cbn [raw privateKey imported sessions set_sessions].
  - destruct (oneTimePreKeys k !! default "" oneTimePreKeyId); rewrite ?app_nil_r; reflexivity.
  - rewrite app_nil_r. reflexivity.
Qed.

(** [startConversation] where the service has its identity key and the
    bundle's keys are imported. *)
Lemma startConversation_accepted fetchKeyBundle now newId ephemeralSeed ratchetSeed
    recipientUserId k identity secret alice :
  identityKeyPair k = Some identity ->
  performX3DH identity (generateKeyPair ephemeralSeed)
    {| identityKey := kb_identityKey (fetchKeyBundle recipientUserId);
       signedPreKey := kb_signedPreKey (fetchKeyBundle recipientUserId);
       signedPreKeySignature := kb_signedPreKeySignature (fetchKeyBundle recipientUserId);
       oneTimePreKey := kb_oneTimePreKey (fetchKeyBundle recipientUserId) |} = Ok secret ->
  initializeAlice ratchetSeed secret (kb_signedPreKey (fetchKeyBundle recipientUserId)) = Ok alice ->
  startConversation fetchKeyBundle now newId ephemeralSeed ratchetSeed recipientUserId k =
  (Ok newId,
   set_sessions (<[newId := {| conversationId := newId; ratchet := alice;
                               createdAt := now; lastUsed := now |}]> (sessions k)) k).
Proof.
  intros Hid Hx Hinit. unfold startConversation, bind, get. cbv zeta. rewrite Hid.
  unfold lift. rewrite Hx, Hinit. reflexivity.
Qed.

End ServiceFacts.

(** X9.  [cleanupOldSessions] keeps a session exactly when it was last used
    no more than seven days (604800000 ms) before the current time, the
    boundary included; the sessions it keeps are unchanged, the key material
    of the service is untouched, and running it again at the same time
    changes nothing. *)
Theorem cleanupOldSessions_keeps_recent `{CP : CryptoPrimitives}
    (now : Z) (k : KeyManagementService) :
  let k' := snd (cleanupOldSessions now k) in
  SEVEN_DAYS = 604800000 /\
  fst (cleanupOldSessions now k) = Ok tt /\
  (forall id session,
     sessions k' !! id = Some session <->
     sessions k !! id = Some session /\ now - SEVEN_DAYS <= lastUsed session) /\
  identityKeyPair k' = identityKeyPair k /\ preKeys k' = preKeys k /\
  oneTimePreKeys k' = oneTimePreKeys k /\
  snd (cleanupOldSessions now k') = k'.
Proof.
  intros k'. split; [reflexivity|]. split; [reflexivity|].
  assert (Hiff : forall k0 id session,
    sessions (snd (cleanupOldSessions now k0)) !! id = Some session <->
    sessions k0 !! id = Some session /\ now - SEVEN_DAYS <= lastUsed session).
  { intros k0 id session. rewrite cleanupOldSessions_lookup.
    destruct (sessions k0 !! id) as [s0|]; [|split; [discriminate | intros [E _]; discriminate]].
    destruct (Z.ltb_spec (lastUsed s0) (now - SEVEN_DAYS)).
    - split; [discriminate|]. intros [[= ->] Hle]. lia.
    - split; [intros [= ->]; auto | intros [E _]; exact E]. }
  split; [apply Hiff|]. split; [reflexivity|]. split; [reflexivity|]. split; [reflexivity|].
  assert (Hs : sessions (snd (cleanupOldSessions now k')) = sessions k').
  { apply map_eq. intros id. apply option_eq. intros session.
    rewrite Hiff. subst k'. rewrite Hiff. tauto. }
  unfold cleanupOldSessions, modify in Hs |- *. cbn [snd sessions set_sessions] in Hs |- *.
  unfold set_sessions at 1. rewrite Hs. subst k'. reflexivity.
Qed.

(** X10.  [decryptMessage] refreshes the last-used time of the session
    whatever the ratchet returns, so any call on a handle, a rejected message
    included, keeps the session through every clean-up of the next seven
    days; a clean-up later than that removes it, and the handle is then
    unknown to [encryptMessage]. *)
Theorem touched_session_outlives_cleanup `{CP : CryptoPrimitives}
    (k : KeyManagementService) (id : string) (session : ConversationSession)
    (t now : Z) (seed : ArrayBuffer) (message : EncryptedMessage) :
  sessions k !! id = Some session ->
  let k1 := snd (decryptMessage t seed id message k) in
  let k2 := snd (cleanupOldSessions now k1) in
  (now - SEVEN_DAYS <= t ->
     sessions k2 !! id =
       Some {| conversationId := conversationId session;
               ratchet := snd (decrypt seed message (ratchet session));
               createdAt := createdAt session;
               lastUsed := t |}) /\
  (t < now - SEVEN_DAYS ->
     sessions k2 !! id = None /\
     forall t' nonce plaintext,
       encryptMessage t' nonce id plaintext k2 = (Err SessionNotFound, k2)).
Proof.
  intros Hs k1 k2. subst k2 k1.
  rewrite (decryptMessage_found t seed id message k session Hs). cbn [snd].
  split.
  - intros Hle. rewrite cleanupOldSessions_lookup. cbn [sessions set_sessions].
    rewrite lookup_insert_eq. cbn [lastUsed].
    destruct (Z.ltb_spec t (now - SEVEN_DAYS)); [lia | reflexivity].
  - intros Hlt.
    match goal with |- sessions (snd (cleanupOldSessions now ?k0)) !! id = None /\ _ =>
      assert (H : sessions (snd (cleanupOldSessions now k0)) !! id = None)
    end.
    { rewrite cleanupOldSessions_lookup. cbn [sessions set_sessions].
      rewrite lookup_insert_eq. cbn [lastUsed].
      destruct (Z.ltb_spec t (now - SEVEN_DAYS)); [reflexivity | lia]. }
    split; [exact H|]. intros t' nonce plaintext.
    apply encryptMessage_not_found. exact H.
Qed.

(** X11.  Where the keys are found and imported, [acceptConversation]
    registers a responder session built on the secret of DH1, DH2, DH3 and,
    if the one-time prekey was found, DH4, and removes that one-time prekey
    from the pool; signed prekeys and the identity key stay.  The same initial
    message presented again is therefore accepted again, under any new
    handle, but its session is built on the secret without DH4: it is not
    the initiator's secret when the initiator used the one-time prekey. *)
Theorem acceptConversation_consumes_oneTimePreKey `{CP : CryptoPrimitives}
    (fetchIdentityKey : string -> ArrayBuffer) (now : Z) (newId senderUserId : string)
    (ephemeralPublicKey : ArrayBuffer) (signedPreKeyId : string)
    (oneTimePreKeyId : option string) (k : KeyManagementService)
    (signedPreKeyPair identity : CryptoKeyPair) :
  preKeys k !! signedPreKeyId = Some signedPreKeyPair ->
  identityKeyPair k = Some identity ->
  import_accepted X25519_usages ephemeralPublicKey = true ->
  import_accepted X25519_usages (fetchIdentityKey senderUserId) = true ->
  let secret otk := responder_secret identity signedPreKeyPair otk
                      (fetchIdentityKey senderUserId) ephemeralPublicKey in
  let accept now newId := acceptConversation fetchIdentityKey now newId senderUserId
                            ephemeralPublicKey signedPreKeyId oneTimePreKeyId in
  let k1 := snd (accept now newId k) in
  fst (accept now newId k) = Ok newId /\
  sessions k1 =
    <[newId := {| conversationId := newId;
                  ratchet := initializeBob (secret (found_oneTimePreKey k oneTimePreKeyId))
                               signedPreKeyPair;
                  createdAt := now; lastUsed := now |}]> (sessions k) /\
  oneTimePreKeys k1 =
    (if truthy oneTimePreKeyId
     then delete (default "" oneTimePreKeyId) (oneTimePreKeys k) else oneTimePreKeys k) /\
  preKeys k1 = preKeys k /\ identityKeyPair k1 = identityKeyPair k /\
  found_oneTimePreKey k1 oneTimePreKeyId = None /\
  forall now' newId',
    fst (accept now' newId' k1) = Ok newId' /\
    sessions (snd (accept now' newId' k1)) !! newId' =
      Some {| conversationId := newId';
              ratchet := initializeBob (secret None) signedPreKeyPair;
              createdAt := now'; lastUsed := now' |}.
Proof.
  intros Hspk Hid Hek Hik secret accept k1. subst k1 accept secret. cbv beta.
  rewrite (acceptConversation_accepted fetchIdentityKey now newId senderUserId ephemeralPublicKey
             signedPreKeyId oneTimePreKeyId k signedPreKeyPair identity Hspk Hid Hek Hik).
  cbn [fst snd].
  set (k1 := set_sessions _ _).
  assert (Hpool : oneTimePreKeys k1 =
            (if truthy oneTimePreKeyId
             then delete (default "" oneTimePreKeyId) (oneTimePreKeys k) else oneTimePreKeys k)).
  { subst k1. unfold without_oneTimePreKey. destruct (truthy oneTimePreKeyId); reflexivity. }
  assert (Hspk1 : preKeys k1 = preKeys k).
  { subst k1. unfold without_oneTimePreKey. destruct (truthy oneTimePreKeyId); reflexivity. }
  assert (Hid1 : identityKeyPair k1 = identityKeyPair k).
  { subst k1. unfold without_oneTimePreKey. destruct (truthy oneTimePreKeyId); reflexivity. }
  assert (Hfound : found_oneTimePreKey k1 oneTimePreKeyId = None).
  { unfold found_oneTimePreKey. rewrite Hpool.
    destruct (truthy oneTimePreKeyId); [apply lookup_delete_eq | reflexivity]. }
  split; [reflexivity|]. split; [reflexivity|]. split; [exact Hpool|].
  split; [exact Hspk1|]. split; [exact Hid1|]. split; [exact Hfound|].
  intros now' newId'.
  rewrite (acceptConversation_accepted fetchIdentityKey now' newId' senderUserId ephemeralPublicKey
             signedPreKeyId oneTimePreKeyId k1 signedPreKeyPair identity);
    [| rewrite Hspk1; exact Hspk | rewrite Hid1; exact Hid | exact Hek | exact Hik].
  cbn [fst snd sessions set_sessions]. split; [reflexivity|].
  rewrite lookup_insert_eq, Hfound. reflexivity.
Qed.

(** X12.  The handshake through the service and the messages after it.
    On a platform that imports the public keys it generates, where
    Diffie-Hellman agrees and AES-GCM opens what it sealed: when the
    initiator's [startConversation] runs on the bundle of the responder's
    identity key, signed prekey and optional one-time prekey, and the
    responder's [acceptConversation] on the initiator's identity and
    ephemeral keys, both register a session, and every message of a
    conversation in which the two take turns, the initiator first, is
    decrypted by the other session. *)
Theorem handshake_then_turns_round_trip `{CP : CryptoPrimitives}
    (Haead : aead_correct) (Hdh : dh_agreement) (Himport : imports_generated_keys)
    (kA kB : KeyManagementService) (ikA ikB spkB : CryptoKeyPair) (opkB : option CryptoKeyPair)
    (fetchKeyBundle : string -> KeyBundle) (fetchIdentityKey : string -> ArrayBuffer)
    (nowA nowB : Z) (idA idB recipientUserId senderUserId signedPreKeyId : string)
    (oneTimePreKeyId : option string) (ephemeralSeed ratchetSeed signature : ArrayBuffer)
    (ms : list Send) :
  wf_pair ikA -> wf_pair ikB -> wf_pair spkB -> from_option wf_pair True opkB ->
  identityKeyPair kA = Some ikA ->
  identityKeyPair kB = Some ikB ->
  preKeys kB !! signedPreKeyId = Some spkB ->
  found_oneTimePreKey kB oneTimePreKeyId = opkB ->
  fetchKeyBundle recipientUserId =
    {| kb_identityKey := publicPoint ikB; kb_signedPreKey := publicPoint spkB;
       kb_signedPreKeySignature := signature; kb_oneTimePreKey := publicPoint <$> opkB |} ->
  fetchIdentityKey senderUserId = publicPoint ikA ->
  alternating Alice ms ->
  exists kA' kB' sessionA sessionB,
    startConversation fetchKeyBundle nowA idA ephemeralSeed ratchetSeed recipientUserId kA
      = (Ok idA, kA') /\
    acceptConversation fetchIdentityKey nowB idB senderUserId (publicOf ephemeralSeed)
      signedPreKeyId oneTimePreKeyId kB = (Ok idB, kB') /\
    sessions kA' !! idA = Some sessionA /\
    sessions kB' !! idB = Some sessionB /\
    outcomes ms (ratchet sessionA, ratchet sessionB) =
      (fun m => Ok (TextDecoder_decode (TextEncoder_encode (text m)))) <$> ms.
Proof.
  intros HikA HikB HspkB HopkB HidA HidB Hspk Hopk Hbundle Hfetch Halt.
  assert (Hacc : forall kp, wf_pair kp -> import_accepted X25519_usages (publicPoint kp) = true)
    by (intros kp ->; apply Himport).
  destruct (x3dh_secrets_agree_where_imported Hdh ikA (generateKeyPair ephemeralSeed) ikB spkB opkB
              kB fetchIdentityKey nowB idB senderUserId signedPreKeyId oneTimePreKeyId signature)
    as (Hx & kB' & Haccept & HsessB);
    try assumption; try reflexivity; try (apply Hacc; assumption).
  { apply Himport. }
  { destruct opkB as [o|]; [apply Hacc; exact HopkB | exact I]. }
  cbn [publicPoint generateKeyPair] in Hx, Haccept, HsessB.
  set (secret := responder_secret ikB spkB opkB (publicPoint ikA) (publicOf ephemeralSeed)) in *.
  destruct (initializeAlice_accepted ratchetSeed secret (publicPoint spkB) (Hacc spkB HspkB))
    as [alice Halice].
  eexists. exists kB'. eexists. eexists.
  split.
  { apply (startConversation_accepted fetchKeyBundle nowA idA ephemeralSeed ratchetSeed
             recipientUserId kA ikA secret alice HidA); rewrite Hbundle; cbn [kb_identityKey
             kb_signedPreKey kb_signedPreKeySignature kb_oneTimePreKey]; assumption. }
  split; [exact Haccept|].
  split; [cbn [sessions set_sessions]; apply lookup_insert_eq|].
  split; [exact HsessB|]. cbn [ratchet].
  apply (alternating_outcomes Haead Hdh Himport ms Alice); [exact Halt|].
  apply (initial_turn Hdh secret spkB ratchetSeed alice HspkB Halice).
Qed.

(** ** The extra facts on the reference instance *)

Section ExtraExamples.
#[local] Existing Instance refPrimitives.

Lemma ref_imports_generated_keys : @imports_generated_keys refPrimitives.
Proof.
  intros seed. cbn [import_accepted publicOf refPrimitives]. unfold ref_publicOf.
  rewrite length_le_split. reflexivity.
Qed.




Lemma turn_taking_round_trips_example :
  alternating Alice sc_turns /\
  outcomes sc_turns (sc_alice0, sc_bob0) =
    [Ok (js "a1"); Ok (js "b1"); Ok (js "a2"); Ok (js "b2")].
Proof.
  assert (Halt : alternating Alice sc_turns) by (repeat split).
  split; [exact Halt|].
  refine (eq_trans (turn_taking_round_trips ref_aead_correct ref_dh_agreement
                      ref_imports_generated_keys sc_sharedKey sc_bobPair (le_split 32 777)
                      sc_alice0 sc_turns sc_bobPair_wf sc_alice0_initialized Halt) _).
  by_evaluation.
Defined.

Lemma text_round_trip_example :
  TextDecoder_decode (TextEncoder_encode [0x68; 0x69]) = [0x68; 0x69] /\
  TextDecoder_decode (TextEncoder_encode [0xFEFF; 0x68; 0x69]) = [0x68; 0x69] /\
  TextDecoder_decode (TextEncoder_encode [0xD800; 0x68; 0x69]) = [0xFFFD; 0x68; 0x69].
Proof.
  apply (text_round_trip_only_for_some_strings [0x68; 0x69]).
  repeat constructor; lia.
Defined.

Lemma handshake_then_turns_example :
  exists kA' kB' sessionA sessionB,
    startConversation
      (fun _ => {| kb_identityKey := publicPoint sc_identityB;
                   kb_signedPreKey := publicPoint sc_bobPair;
                   kb_signedPreKeySignature := [];
                   kb_oneTimePreKey := Some (publicPoint sc_oneTimeB) |})
      1000 "conv-A" (le_split 32 1414) (le_split 32 777) "bob"
      {| sessions := ∅; identityKeyPair := Some sc_identityA; preKeys := ∅; oneTimePreKeys := ∅ |}
      = (Ok "conv-A"%string, kA') /\
    acceptConversation (fun _ => publicPoint sc_identityA) 1000 "conv-B" "alice"
      (publicOf (le_split 32 1414)) "signed-1" (Some "onetime-0"%string) sc_serviceB
      = (Ok "conv-B"%string, kB') /\
    sessions kA' !! "conv-A"%string = Some sessionA /\
    sessions kB' !! "conv-B"%string = Some sessionB /\
    outcomes sc_turns (ratchet sessionA, ratchet sessionB) =
      (fun m => Ok (TextDecoder_decode (TextEncoder_encode (text m)))) <$> sc_turns.
Proof.
  apply (handshake_then_turns_round_trip ref_aead_correct ref_dh_agreement
           ref_imports_generated_keys _ sc_serviceB sc_identityA sc_identityB sc_bobPair
           (Some sc_oneTimeB) _ _ 1000 1000 "conv-A" "conv-B" "bob" "alice" "signed-1"
           (Some "onetime-0"%string) (le_split 32 1414) (le_split 32 777) [] sc_turns);
    try reflexivity.
  repeat split.
Defined.

Lemma acceptConversation_consumes_oneTimePreKey_example :
  let accept now newId := acceptConversation (fun _ => publicPoint sc_identityA) now newId "alice"
                            (publicPoint sc_ephemeralA) "signed-1" (Some "onetime-0"%string) in
  let k1 := snd (accept 2000 "conv-2"%string sc_serviceB) in
  oneTimePreKeys sc_serviceB !! "onetime-0"%string = Some sc_oneTimeB /\
  oneTimePreKeys k1 !! "onetime-0"%string = None /\
  fst (accept 2001 "conv-3"%string k1) = Ok "conv-3"%string.
Proof.
  intros accept k1.
  assert (Hspk : preKeys sc_serviceB !! "signed-1"%string = Some sc_bobPair) by reflexivity.
  assert (Hid : identityKeyPair sc_serviceB = Some sc_identityB) by reflexivity.
  destruct (acceptConversation_consumes_oneTimePreKey (fun _ => publicPoint sc_identityA) 2000
              "conv-2" "alice" (publicPoint sc_ephemeralA) "signed-1" (Some "onetime-0"%string)
              sc_serviceB sc_bobPair sc_identityB Hspk Hid
              (ref_imports_generated_keys (le_split 32 1414))
              (ref_imports_generated_keys (le_split 32 1618)))
    as (_ & _ & Hpool & _ & _ & _ & Hagain).
  split; [reflexivity|]. split.
  - subst k1 accept. cbv beta. rewrite Hpool. apply lookup_delete_eq.
  - apply (Hagain 2001 "conv-3"%string).
Defined.

Lemma touched_session_outlives_cleanup_example :
  sessions sc_serviceA !! "conv-1"%string = Some sc_sessionA /\
  lastUsed <$> (sessions (snd (cleanupOldSessions (5000 + SEVEN_DAYS)
                  (snd (decryptMessage 5000 sc_seed2 "conv-1" sc_forged sc_serviceA))))
                !! "conv-1"%string) = Some 5000.
Proof.
  assert (Hs : sessions sc_serviceA !! "conv-1"%string = Some sc_sessionA) by reflexivity.
  split; [exact Hs|].
  destruct (touched_session_outlives_cleanup sc_serviceA "conv-1" sc_sessionA 5000
              (5000 + SEVEN_DAYS) sc_seed2 sc_forged Hs) as [Hkeep _].
  rewrite Hkeep by (unfold SEVEN_DAYS; lia). reflexivity.
Defined.

End ExtraExamples.
